(** * Remoteness scoring API (server.js): embedding and verified properties

    The development follows the layout of [server.js]:
    - the in-memory ZIP store ([zipData], [zipIndex]) and [loadZipData];
    - the scoring engine ([computeRemotenessComponents], [categorizeScore],
      [suggestedSurcharge]);
    - the handlers of [/location-score], [/trip-score] and [/reload-zips],
      as functions from the store and the request to the JSON response.

    Numbers read from [zips.json] are IEEE binary64 values, as in JavaScript;
    they are modelled by Rocq's primitive floats, so a literal such as [0.7]
    denotes the same double here and in the source.  Scores, surcharge
    amounts, months and lengths are small integers and are modelled in [Z]
    (lengths in [nat]). *)

From Stdlib Require Import ZArith Lia PrimFloat SpecFloat FloatAxioms.
From stdpp Require Import gmap strings list.

Set Warnings "-inexact-float".
Local Open Scope Z_scope.

(** ** Data model *)

(** One entry of [zips.json] with the fields [server.js] reads, typed as
    the dataset has them: [zip], [city] and [state] are strings, the three
    measures and the scarcity index are numbers, the three flags are
    booleans.  A field that is missing from the JSON object (or is [null])
    is [None]; the source reads the numeric fields through [?? null] and
    [?? 0] and the flags through [!!]. *)
Record ZipRecord := mkZipRecord {
  zip : option string;
  city : option string;
  state : option string;
  population_density : option float;
  drive_time_city_100k_min : option float;
  drive_time_interstate_min : option float;
  is_mountain : option bool;
  is_island : option bool;
  winter_risk : option bool;
  carrier_scarcity_index : option float
}.

(** The [components] object built by [computeRemotenessComponents]. *)
Record Components := mkComponents {
  densityScore : Z;
  metroAccessScore : Z;
  roadTerrainScore : Z;
  carrierScore : Z;
  totalScore : Z
}.

(** The object returned by [suggestedSurcharge] and built for the trip. *)
Record Surcharge := mkSurcharge {
  currency : string;
  type : string;
  min : Z;
  max : Z
}.

(** ** JavaScript operators used by the source *)

Module Js.

(** [a < b] and [a > b] on numbers (false when an operand is NaN). *)
Definition lt (a b : float) : bool := PrimFloat.ltb a b.
Definition gt (a b : float) : bool := PrimFloat.ltb b a.

(** [!!v] for a flag that is a boolean or missing ([undefined]). *)
Definition truthy_flag (v : option bool) : bool :=
  match v with
  | Some b => b
  | None => false
  end.

(** Truthiness of a string-valued property: missing and [""] are falsy. *)
Definition truthy_string (v : option string) : bool :=
  match v with
  | Some s => negb (String.eqb s "")
  | None => false
  end.

(** [v ?? d] on a numeric property. *)
Definition nullish (v : option float) (d : float) : float :=
  match v with
  | Some x => x
  | None => d
  end.

(** [String(v)] on a string-valued property. *)
Definition String (v : option string) : string :=
  match v with
  | Some s => s
  | None => "undefined"
  end.

(** Truthiness of a number: [0], [-0] and [NaN] are falsy. *)
Definition truthy_number (x : float) : bool :=
  negb (PrimFloat.eqb x 0) && PrimFloat.eqb x x.

(** [arr.includes(x)] on an array of integers. *)
Definition includes (arr : list Z) (x : Z) : bool :=
  existsb (Z.eqb x) arr.

End Js.

(** ** Core scoring logic *)

Definition components0 : Components :=
  {| densityScore := 0; metroAccessScore := 0; roadTerrainScore := 0;
     carrierScore := 0; totalScore := 0 |}.

Definition winterMonths : list Z := [11; 12; 1; 2; 3].

(** Density score (lines 73-79). *)
Definition density_part (density : option float) : Z :=
  match density with
  | Some d =>
      if Js.lt d 150 then 2
      else if Js.lt d 500 then 1
      else 0
  | None => 0
  end.

(** Metro access score: distance to a 100k city (lines 82-88) ... *)
Definition driveCity_part (driveCity : option float) : Z :=
  match driveCity with
  | Some t =>
      if Js.gt t 90 then 2
      else if Js.gt t 60 then 1
      else 0
  | None => 0
  end.

(** ... and to the interstate (lines 90-92). *)
Definition driveInterstate_part (driveInterstate : option float) : Z :=
  match driveInterstate with
  | Some t => if Js.gt t 30 then 1 else 0
  | None => 0
  end.

(** Terrain / geography (lines 95-100). *)
Definition terrain_part (isMountain isIsland : bool) : Z :=
  (if isMountain then 1 else 0) + (if isIsland then 1 else 0).

(** Winter season effect (lines 103-106). *)
Definition winter_part (winterRisk : bool) (month : Z) : Z :=
  if winterRisk && Js.includes winterMonths month then 1 else 0.

(** Carrier scarcity score (lines 109-113). *)
Definition carrier_part (carrierScarcity : float) : Z :=
  if Js.gt carrierScarcity 0.7 then 2
  else if Js.gt carrierScarcity 0.4 then 1
  else 0.

(** [computeRemotenessComponents(zipRecord, month)]; [None] is a falsy
    [zipRecord] ([null] or [undefined]).  The in-place updates of
    [components] are threaded as successive record values. *)
Definition computeRemotenessComponents
    (zipRecord : option ZipRecord) (month : Z) : Components :=
  let components := components0 in
  match zipRecord with
  | None => components
  | Some zipRecord =>
      let density := population_density zipRecord in
      let driveCity := drive_time_city_100k_min zipRecord in
      let driveInterstate := drive_time_interstate_min zipRecord in
      let isMountain := Js.truthy_flag (is_mountain zipRecord) in
      let isIsland := Js.truthy_flag (is_island zipRecord) in
      let winterRisk := Js.truthy_flag (winter_risk zipRecord) in
      let carrierScarcity :=
        Js.nullish (carrier_scarcity_index zipRecord) 0 in
      let densityScore' := densityScore components + density_part density in
      let metroAccessScore' :=
        metroAccessScore components
        + driveCity_part driveCity + driveInterstate_part driveInterstate in
      let roadTerrainScore' :=
        roadTerrainScore components
        + terrain_part isMountain isIsland + winter_part winterRisk month in
      let carrierScore' :=
        carrierScore components + carrier_part carrierScarcity in
      {| densityScore := densityScore';
         metroAccessScore := metroAccessScore';
         roadTerrainScore := roadTerrainScore';
         carrierScore := carrierScore';
         totalScore :=
           densityScore' + metroAccessScore' + roadTerrainScore'
           + carrierScore' |}
  end.

Definition categorizeScore (totalScore : Z) : string :=
  if totalScore <=? 2 then "URBAN_EASY"
  else if totalScore <=? 4 then "NORMAL"
  else if totalScore <=? 6 then "RURAL_DIFFICULT"
  else "REMOTE_PREMIUM".

Definition suggestedSurcharge (category : string) : Surcharge :=
  if String.eqb category "URBAN_EASY" then
    {| currency := "USD"; type := "lump_sum"; min := 0; max := 0 |}
  else if String.eqb category "NORMAL" then
    {| currency := "USD"; type := "lump_sum"; min := 25; max := 50 |}
  else if String.eqb category "RURAL_DIFFICULT" then
    {| currency := "USD"; type := "lump_sum"; min := 75; max := 150 |}
  else if String.eqb category "REMOTE_PREMIUM" then
    {| currency := "USD"; type := "lump_sum"; min := 150; max := 300 |}
  else
    {| currency := "USD"; type := "lump_sum"; min := 0; max := 0 |}.

(** ** ZIP data in memory *)

(** An element of the array parsed from [zips.json], seen through what
    the [forEach] callback does with it: reading [z.zip] throws a
    [TypeError] on [null]; on a number, string, boolean or array it yields
    [undefined]; on an object it yields the object's [zip] property. *)
Inductive Entry :=
  | EntryNull
  | EntryOther
  | EntryRecord (r : ZipRecord).

(** What [fs.readFileSync] followed by [JSON.parse] can deliver: an
    exception of either call with its message, a value that is not an array
    (calling [forEach] on it throws a [TypeError] with the given message),
    or an array. *)
Inductive Source :=
  | ReadFails (message : string)
  | ParseFails (message : string)
  | ParsedNonArray (message : string)
  | ParsedArray (entries : list Entry).

(** *** The plain object behind [zipIndex]

    [zipIndex] is created by the literal [{}] and used as a map from ZIP
    code to record.  Reading [zipIndex[key]] walks the prototype chain, and
    writing [zipIndex["__proto__"] = z] runs the setter inherited from
    [Object.prototype], which makes the record [z] the prototype of the
    object instead of adding a key.  The object is therefore modelled by
    its own properties together with its prototype: [None] for
    [Object.prototype], [Some z] for a record installed by that setter
    (whose own prototype is [Object.prototype]). *)
Record PlainObject := mkPlainObject {
  own_properties : gmap string ZipRecord;
  prototype : option ZipRecord
}.

(** The literal [{}]. *)
Global Instance PlainObject_empty : Empty PlainObject :=
  {| own_properties := ∅; prototype := None |}.

(** [Object.keys(o).length]. *)
Global Instance PlainObject_size : Size PlainObject :=
  fun o => size (own_properties o).

(** The members of [Object.prototype]. *)
Definition Object_prototype_names : list string :=
  ["constructor"; "__defineGetter__"; "__defineSetter__"; "hasOwnProperty";
   "__lookupGetter__"; "__lookupSetter__"; "isPrototypeOf";
   "propertyIsEnumerable"; "toString"; "valueOf"; "__proto__";
   "toLocaleString"].

(** How the handlers see a truthy value that is not a record of the
    dataset (an inherited method, [Object.prototype] itself, or a string,
    number or boolean): each of the ten properties they read from it is
    [undefined]. *)
Definition blank_record : ZipRecord :=
  {| zip := None; city := None; state := None;
     population_density := None;
     drive_time_city_100k_min := None;
     drive_time_interstate_min := None;
     is_mountain := None;
     is_island := None;
     winter_risk := None;
     carrier_scarcity_index := None |}.

(** The own property [name] of a record, as far as a lookup goes:
    [Some b] when the record has the property, [b] being the truthiness of
    its value; [None] when [name] is not one of its fields or the field is
    missing (a field that is [null] is read as missing: the lookup then
    ends on [undefined] instead of [null], both falsy).  Records hold the
    ten fields of the data model and no others. *)
Definition field_truthy (z : ZipRecord) (name : string) : option bool :=
  if String.eqb name "zip" then
    (fun s => Js.truthy_string (Some s)) <$> zip z
  else if String.eqb name "city" then
    (fun s => Js.truthy_string (Some s)) <$> city z
  else if String.eqb name "state" then
    (fun s => Js.truthy_string (Some s)) <$> state z
  else if String.eqb name "population_density" then
    Js.truthy_number <$> population_density z
  else if String.eqb name "drive_time_city_100k_min" then
    Js.truthy_number <$> drive_time_city_100k_min z
  else if String.eqb name "drive_time_interstate_min" then
    Js.truthy_number <$> drive_time_interstate_min z
  else if String.eqb name "is_mountain" then is_mountain z
  else if String.eqb name "is_island" then is_island z
  else if String.eqb name "winter_risk" then winter_risk z
  else if String.eqb name "carrier_scarcity_index" then
    Js.truthy_number <$> carrier_scarcity_index z
  else None.

(** [o[key] = z] for a record [z]: the inherited [__proto__] setter
    replaces the prototype; any other key becomes, or updates, an own
    property. *)
Definition object_set
    (o : PlainObject) (key : string) (z : ZipRecord) : PlainObject :=
  if String.eqb key "__proto__"
  then {| own_properties := own_properties o; prototype := Some z |}
  else {| own_properties := <[key := z]> (own_properties o);
          prototype := prototype o |}.

(** What [Object.prototype] holds under [key]: a method, hence a truthy
    value without any of the fields, or nothing. *)
Definition Object_prototype_get (key : string) : option ZipRecord :=
  if existsb (String.eqb key) Object_prototype_names
  then Some blank_record
  else None.

(** [o[key]] followed by a truthiness test: [None] when the value is
    falsy, otherwise the value as the handlers see it.  The lookup tries
    the own properties, then the [__proto__] getter (which returns the
    prototype), then the own properties of a record installed as
    prototype, then [Object.prototype]. *)
Definition object_get (o : PlainObject) (key : string) : option ZipRecord :=
  match own_properties o !! key with
  | Some r => Some r
  | None =>
      if String.eqb key "__proto__" then
        match prototype o with
        | Some z => Some z
        | None => Some blank_record
        end
      else
        match prototype o with
        | Some z =>
            match field_truthy z key with
            | Some true => Some blank_record
            | Some false => None
            | None => Object_prototype_get key
            end
        | None => Object_prototype_get key
        end
  end.

(** The place that [o[key] = z] writes to and that [o[key]] reads first:
    the prototype for [__proto__], the own property for any other key. *)
Definition object_slot (o : PlainObject) (key : string) : option ZipRecord :=
  if String.eqb key "__proto__" then prototype o else own_properties o !! key.

(** The two module-level variables. *)
Record Store := mkStore {
  zipData : list Entry;
  zipIndex : PlainObject
}.

Inductive ConsoleLine :=
  | LogLoaded (n : nat)
  | ErrorLoading (message : string).

(** Completion of a block: normal, or an exception with its message. *)
Inductive Completion (A : Type) :=
  | Normal (a : A)
  | Throw (message : string).
Arguments Normal {A} a.
Arguments Throw {A} message.

(** Body of the [forEach] callback (lines 23-27) on the index built so
    far. *)
Definition index_entry
    (idx : PlainObject) (z : Entry) : Completion PlainObject :=
  match z with
  | EntryNull => Throw "Cannot read properties of null (reading 'zip')"
  | EntryOther => Normal idx
  | EntryRecord r =>
      if Js.truthy_string (zip r)
      then Normal (object_set idx (Js.String (zip r)) r)
      else Normal idx
  end.

(** [zipData.forEach(...)]: the callback runs on the elements in order
    and the first exception aborts the loop. *)
Fixpoint forEach
    (entries : list Entry) (idx : PlainObject) : Completion PlainObject :=
  match entries with
  | [] => Normal idx
  | z :: rest =>
      match index_entry idx z with
      | Normal idx' => forEach rest idx'
      | Throw message => Throw message
      end
  end.

(** The [try] block of [loadZipData] (lines 19-29).  On normal completion
    it yields the two variables and the line logged.  On an exception the
    assignments already made are not recorded: the [catch] block overwrites
    both variables without reading them. *)
Definition loadZipData_try (src : Source) : Completion (Store * ConsoleLine) :=
  match src with
  | ReadFails message => Throw message
  | ParseFails message => Throw message
  | ParsedNonArray message => Throw message
  | ParsedArray entries =>
      match forEach entries ∅ with
      | Normal idx =>
          Normal ({| zipData := entries; zipIndex := idx |},
                  LogLoaded (length entries))
      | Throw message => Throw message
      end
  end.

(** [loadZipData()], from the store before the call to the store after
    it and the console line written. *)
Definition loadZipData (src : Source) (st : Store) : Store * ConsoleLine :=
  match loadZipData_try src with
  | Normal (st', line) => (st', line)
  | Throw message =>
      ({| zipData := []; zipIndex := ∅ |}, ErrorLoading message)
  end.

(** The store before the first load (lines 14-15). *)
Definition initial_store : Store := {| zipData := []; zipIndex := ∅ |}.

(** Elements on which the callback throws. *)
Definition is_null (z : Entry) : bool :=
  match z with
  | EntryNull => true
  | _ => false
  end.

(** Elements the callback passes over without touching the index: those
    with a missing or falsy [zip]. *)
Definition skipped (z : Entry) : bool :=
  match z with
  | EntryNull => false
  | EntryOther => true
  | EntryRecord r => negb (Js.truthy_string (zip r))
  end.

(** Sources that can be read, parse to an array and hold no [null]
    element; every other source makes the load fail as a whole. *)
Definition well_formed (src : Source) : bool :=
  match src with
  | ParsedArray entries => negb (existsb is_null entries)
  | _ => false
  end.

(** [zipIndex[String(zip)]] followed by the [!record] test of the
    handlers: [None] is the not-found case. *)
Definition lookup_zip (st : Store) (zip : string) : option ZipRecord :=
  object_get (zipIndex st) zip.

(** ** Express endpoints *)

(** [normalizeMonth]: [m] is the result of [parseInt(monthParam, 10)]
    ([None] for NaN), [currentMonth] is [new Date().getMonth() + 1]. *)
Definition normalizeMonth (m : option Z) (currentMonth : Z) : Z :=
  match m with
  | None => currentMonth
  | Some m => if (m <? 1) || (m >? 12) then currentMonth else m
  end.

Record ReloadResponse := mkReloadResponse {
  status : string;
  total_zips : nat
}.

(** [POST /reload-zips] (lines 258-261). *)
Definition reload_zips (src : Source) (st : Store)
    : Store * ConsoleLine * ReloadResponse :=
  let '(st', line) := loadZipData src st in
  (st', line, {| status := "reloaded"; total_zips := length (zipData st') |}).

Record EndpointBody := mkEndpointBody {
  ep_zip : option string;
  ep_city : option string;
  ep_state : option string;
  ep_components : Components;
  ep_category : string;
  ep_suggested_surcharge : Surcharge
}.

Record TripBody := mkTripBody {
  trip_month : Z;
  pickup : EndpointBody;
  delivery : EndpointBody;
  total_suggested_surcharge : Surcharge
}.

Inductive TripResponse :=
  | TripError (code : Z) (error : string)
  | TripOk (body : TripBody).

(** The trip rule of lines 228-233. *)
Definition totalSurcharge
    (pickupSurcharge deliverySurcharge : Surcharge) : Surcharge :=
  {| currency := "USD";
     type := "lump_sum";
     min := min pickupSurcharge + min deliverySurcharge;
     max := max pickupSurcharge + max deliverySurcharge |}.

(** [GET /trip-score] (lines 190-255). *)
Definition trip_score
    (st : Store) (pickup_zip delivery_zip : option string)
    (month : option Z) (currentMonth : Z) : TripResponse :=
  if negb (Js.truthy_string pickup_zip)
     || negb (Js.truthy_string delivery_zip)
  then TripError 400 "Missing required parameters: pickup_zip and delivery_zip"
  else
    let monthNum := normalizeMonth month currentMonth in
    match lookup_zip st (Js.String pickup_zip),
          lookup_zip st (Js.String delivery_zip) with
    | None, _ =>
        TripError 404
          ("Pickup ZIP " ++ Js.String pickup_zip ++ " not found in dataset")
    | Some _, None =>
        TripError 404
          ("Delivery ZIP " ++ Js.String delivery_zip
           ++ " not found in dataset")
    | Some pickupRecord, Some deliveryRecord =>
        let pickupComponents :=
          computeRemotenessComponents (Some pickupRecord) monthNum in
        let deliveryComponents :=
          computeRemotenessComponents (Some deliveryRecord) monthNum in
        let pickupCategory := categorizeScore (totalScore pickupComponents) in
        let deliveryCategory :=
          categorizeScore (totalScore deliveryComponents) in
        let pickupSurcharge := suggestedSurcharge pickupCategory in
        let deliverySurcharge := suggestedSurcharge deliveryCategory in
        TripOk
          {| trip_month := monthNum;
             pickup :=
               {| ep_zip := zip pickupRecord;
                  ep_city := city pickupRecord;
                  ep_state := state pickupRecord;
                  ep_components := pickupComponents;
                  ep_category := pickupCategory;
                  ep_suggested_surcharge := pickupSurcharge |};
             delivery :=
               {| ep_zip := zip deliveryRecord;
                  ep_city := city deliveryRecord;
                  ep_state := state deliveryRecord;
                  ep_components := deliveryComponents;
                  ep_category := deliveryCategory;
                  ep_suggested_surcharge := deliverySurcharge |};
             total_suggested_surcharge :=
               totalSurcharge pickupSurcharge deliverySurcharge |}
    end.

Record LocationBody := mkLocationBody {
  loc_zip : option string;
  loc_city : option string;
  loc_state : option string;
  loc_month : Z;
  loc_components : Components;
  loc_category : string;
  loc_suggested_surcharge : Surcharge
}.

Inductive LocationResponse :=
  | LocationError (code : Z) (error : string)
  | LocationOk (body : LocationBody).

(** [GET /location-score] (lines 160-187). *)
Definition location_score
    (st : Store) (zip_param : option string)
    (month : option Z) (currentMonth : Z) : LocationResponse :=
  if negb (Js.truthy_string zip_param)
  then LocationError 400 "Missing required parameter: zip"
  else
    let monthNum := normalizeMonth month currentMonth in
    match lookup_zip st (Js.String zip_param) with
    | None =>
        LocationError 404
          ("ZIP " ++ Js.String zip_param ++ " not found in dataset")
    | Some record =>
        let components :=
          computeRemotenessComponents (Some record) monthNum in
        let category := categorizeScore (totalScore components) in
        let surcharge := suggestedSurcharge category in
        LocationOk
          {| loc_zip := zip record;
             loc_city := city record;
             loc_state := state record;
             loc_month := monthNum;
             loc_components := components;
             loc_category := category;
             loc_suggested_surcharge := surcharge |}
    end.

(** The key under which the [forEach] callback files an element, if it
    files it at all (lines 24-25). *)
Definition entry_key (z : Entry) : option string :=
  match z with
  | EntryRecord r =>
      if Js.truthy_string (zip r) then Some (Js.String (zip r)) else None
  | _ => None
  end.

(** The own property of the index that the callback creates or updates
    for an element, if any: its key, unless that is [__proto__]. *)
Definition own_key (z : Entry) : option string :=
  match entry_key z with
  | Some k => if String.eqb k "__proto__" then None else Some k
  | None => None
  end.

(** ** Sample data used by the examples *)

(** The record of the worked example of the specification. *)
Definition example_record : ZipRecord :=
  {| zip := Some "59001"; city := None; state := None;
     population_density := Some 100%float;
     drive_time_city_100k_min := Some 95%float;
     drive_time_interstate_min := Some 40%float;
     is_mountain := Some true;
     is_island := Some false;
     winter_risk := Some true;
     carrier_scarcity_index := Some 0.8%float |}.

(** A record on which every rule fires. *)
Definition remote_island_record : ZipRecord :=
  {| zip := Some "99950"; city := Some "Ketchikan"; state := Some "AK";
     population_density := Some 3%float;
     drive_time_city_100k_min := Some 600%float;
     drive_time_interstate_min := Some 600%float;
     is_mountain := Some true;
     is_island := Some true;
     winter_risk := Some true;
     carrier_scarcity_index := Some 0.9%float |}.

(** A second entry for the ZIP of [example_record]. *)
Definition example_record_dup : ZipRecord :=
  {| zip := Some "59001"; city := Some "Absarokee"; state := Some "MT";
     population_density := Some 900%float;
     drive_time_city_100k_min := None;
     drive_time_interstate_min := None;
     is_mountain := None;
     is_island := None;
     winter_risk := None;
     carrier_scarcity_index := None |}.

(** An entry without [zip]. *)
Definition keyless_record : ZipRecord :=
  {| zip := None; city := Some "Nowhere"; state := None;
     population_density := None;
     drive_time_city_100k_min := None;
     drive_time_interstate_min := None;
     is_mountain := None;
     is_island := None;
     winter_risk := None;
     carrier_scarcity_index := None |}.

(** An entry whose ZIP code is [__proto__]. *)
Definition proto_record : ZipRecord :=
  {| zip := Some "__proto__"; city := Some "Nowhere"; state := None;
     population_density := None;
     drive_time_city_100k_min := None;
     drive_time_interstate_min := None;
     is_mountain := None;
     is_island := None;
     winter_risk := None;
     carrier_scarcity_index := None |}.

Definition sample_entries : list Entry :=
  [EntryRecord example_record; EntryRecord remote_island_record].

Definition sample_store : Store :=
  fst (loadZipData (ParsedArray sample_entries) initial_store).

(** ** Properties of the scoring engine *)

Section ScoreBounds.

Lemma density_part_range density : 0 <= density_part density <= 2.
Proof.
  destruct density as [d|]; simpl; [|lia].
  destruct (Js.lt d 150); [lia|]. destruct (Js.lt d 500); lia.
Qed.

Lemma driveCity_part_range driveCity : 0 <= driveCity_part driveCity <= 2.
Proof.
  destruct driveCity as [t|]; simpl; [|lia].
  destruct (Js.gt t 90); [lia|]. destruct (Js.gt t 60); lia.
Qed.

Lemma driveInterstate_part_range driveInterstate :
  0 <= driveInterstate_part driveInterstate <= 1.
Proof.
  destruct driveInterstate as [t|]; simpl; [|lia].
  destruct (Js.gt t 30); lia.
Qed.

Lemma terrain_part_range isMountain isIsland :
  0 <= terrain_part isMountain isIsland <= 2.
Proof. destruct isMountain, isIsland; unfold terrain_part; lia. Qed.

Lemma winter_part_range winterRisk month :
  0 <= winter_part winterRisk month <= 1.
Proof.
  unfold winter_part.
  destruct (winterRisk && Js.includes winterMonths month); lia.
Qed.

Lemma carrier_part_range carrierScarcity :
  0 <= carrier_part carrierScarcity <= 2.
Proof.
  unfold carrier_part.
  destruct (Js.gt carrierScarcity 0.7); [lia|].
  destruct (Js.gt carrierScarcity 0.4); lia.
Qed.

End ScoreBounds.

(** Brings the ranges of the six parts of the score of [r] into the
    context. *)
Ltac part_ranges r month :=
  pose proof (density_part_range (population_density r));
  pose proof (driveCity_part_range (drive_time_city_100k_min r));
  pose proof (driveInterstate_part_range (drive_time_interstate_min r));
  pose proof (terrain_part_range (Js.truthy_flag (is_mountain r))
                                 (Js.truthy_flag (is_island r)));
  pose proof (winter_part_range (Js.truthy_flag (winter_risk r)) month);
  pose proof (carrier_part_range (Js.nullish (carrier_scarcity_index r) 0)).

(** The scores of a present record, field by field. *)
Lemma computeRemotenessComponents_Some r month :
  let c := computeRemotenessComponents (Some r) month in
  densityScore c = density_part (population_density r)
  /\ metroAccessScore c =
       driveCity_part (drive_time_city_100k_min r)
       + driveInterstate_part (drive_time_interstate_min r)
  /\ roadTerrainScore c =
       terrain_part (Js.truthy_flag (is_mountain r))
                    (Js.truthy_flag (is_island r))
       + winter_part (Js.truthy_flag (winter_risk r)) month
  /\ carrierScore c =
       carrier_part (Js.nullish (carrier_scarcity_index r) 0)
  /\ totalScore c =
       densityScore c + metroAccessScore c + roadTerrainScore c
       + carrierScore c.
Proof. cbn. repeat split; lia. Qed.

Lemma includes_winterMonths month :
  Js.includes winterMonths month = true
  <-> month = 11 \/ month = 12 \/ month = 1 \/ month = 2 \/ month = 3.
Proof.
  unfold Js.includes, winterMonths. cbn [existsb].
  rewrite !orb_true_iff, !Z.eqb_eq. intuition congruence.
Qed.

(** C3: the worked example, scored at month 1, gives density 2, metro
    access 3, road/terrain 2, carrier 2, total 9, category REMOTE_PREMIUM
    and the surcharge range 150..300. *)
Theorem example_record_scores :
  let c := computeRemotenessComponents (Some example_record) 1 in
  densityScore c = 2 /\ metroAccessScore c = 3 /\ roadTerrainScore c = 2
  /\ carrierScore c = 2 /\ totalScore c = 9
  /\ categorizeScore (totalScore c) = "REMOTE_PREMIUM"
  /\ min (suggestedSurcharge (categorizeScore (totalScore c))) = 150
  /\ max (suggestedSurcharge (categorizeScore (totalScore c))) = 300.
Proof. cbv zeta. repeat split; vm_compute; reflexivity. Qed.

(** C2 as stated fails: on [remote_island_record] in January the total is
    10, outside 0..8. *)
Lemma total_above_8 :
  1 <= 1 <= 12
  /\ totalScore (computeRemotenessComponents (Some remote_island_record) 1)
     = 10
  /\ ~ (0 <= totalScore
               (computeRemotenessComponents (Some remote_island_record) 1)
         <= 8).
Proof. vm_compute. intuition congruence. Qed.

(** C2, amended: for every record (present or absent) and every month, in
    particular the months 1..12, the total score is an integer between 0
    and 10 inclusive. *)
Theorem totalScore_range zipRecord month :
  0 <= totalScore (computeRemotenessComponents zipRecord month) <= 10.
Proof.
  destruct zipRecord as [r|]; [|cbn; lia].
  destruct (computeRemotenessComponents_Some r month)
    as (Hd & Hm & Hr & Hc & Ht).
  rewrite Ht, Hd, Hm, Hr, Hc.
  part_ranges r month. lia.
Qed.

(** C4: for every record, an absent one included, and every month, the
    total is exactly the sum of the four sub-scores and each sub-score is
    a non-negative integer. *)
Theorem total_is_sum_of_components zipRecord month :
  let c := computeRemotenessComponents zipRecord month in
  totalScore c
  = densityScore c + metroAccessScore c + roadTerrainScore c + carrierScore c
  /\ 0 <= densityScore c /\ 0 <= metroAccessScore c
  /\ 0 <= roadTerrainScore c /\ 0 <= carrierScore c.
Proof.
  destruct zipRecord as [r|]; [|cbn; lia].
  destruct (computeRemotenessComponents_Some r month)
    as (Hd & Hm & Hr & Hc & Ht).
  cbv zeta. rewrite Ht, Hd, Hm, Hr, Hc.
  part_ranges r month. lia.
Qed.

(** C5: categorization maps every integer total, in particular every
    non-negative one, to exactly one of the four categories, and the four
    preimages are the contiguous ranges total <= 2, 3..4, 5..6 and >= 7. *)
Theorem categorizeScore_partition totalScore :
  (categorizeScore totalScore = "URBAN_EASY" <-> totalScore <= 2)
  /\ (categorizeScore totalScore = "NORMAL" <-> 3 <= totalScore <= 4)
  /\ (categorizeScore totalScore = "RURAL_DIFFICULT"
      <-> 5 <= totalScore <= 6)
  /\ (categorizeScore totalScore = "REMOTE_PREMIUM" <-> 7 <= totalScore)
  /\ (categorizeScore totalScore = "URBAN_EASY"
      \/ categorizeScore totalScore = "NORMAL"
      \/ categorizeScore totalScore = "RURAL_DIFFICULT"
      \/ categorizeScore totalScore = "REMOTE_PREMIUM").
Proof.
  unfold categorizeScore.
  destruct (Z.leb_spec totalScore 2); [|destruct (Z.leb_spec totalScore 4);
    [|destruct (Z.leb_spec totalScore 6)]];
  repeat split; intros; try lia; try discriminate; auto.
Qed.

(** C6: for every record and every month, the road/terrain score is the
    mountain/island score plus 1 when the record's winter-risk flag is true
    and the month is one of 11, 12, 1, 2, 3, and is the mountain/island
    score alone in every other case; March gets the bonus, April does
    not. *)
Theorem winter_bonus_iff r month :
  let base := terrain_part (Js.truthy_flag (is_mountain r))
                           (Js.truthy_flag (is_island r)) in
  let road m := roadTerrainScore (computeRemotenessComponents (Some r) m) in
  let in_window m := m = 11 \/ m = 12 \/ m = 1 \/ m = 2 \/ m = 3 in
  (road month = base + 1 <-> winter_risk r = Some true /\ in_window month)
  /\ (road month = base
      <-> ~ (winter_risk r = Some true /\ in_window month))
  /\ (winter_risk r = Some true -> road 3 = base + 1 /\ road 4 = base).
Proof.
  cbv beta zeta.
  assert (Hroad : forall m,
    roadTerrainScore (computeRemotenessComponents (Some r) m)
    = terrain_part (Js.truthy_flag (is_mountain r))
                   (Js.truthy_flag (is_island r))
      + winter_part (Js.truthy_flag (winter_risk r)) m).
  { intros m. apply (computeRemotenessComponents_Some r m). }
  rewrite !Hroad. clear Hroad.
  pose proof (includes_winterMonths month) as Hw.
  split; [|split].
  - unfold winter_part.
    destruct (winter_risk r) as [[|]|]; cbn [Js.truthy_flag andb];
      [destruct (Js.includes winterMonths month)| |];
      split; try lia; try tauto; intros [[=] _].
  - unfold winter_part.
    destruct (winter_risk r) as [[|]|]; cbn [Js.truthy_flag andb];
      [destruct (Js.includes winterMonths month)| |];
      split; try lia; try tauto; intros _ [[=] _].
  - intros ->.
    change (winter_part (Js.truthy_flag (Some true)) 3) with 1.
    change (winter_part (Js.truthy_flag (Some true)) 4) with 0.
    lia.
Qed.

(** On [example_record], whose winter-risk flag is set, March scores the
    mountain point and the winter point, April the mountain point only. *)
Lemma winter_bonus_iff_witness :
  winter_risk example_record = Some true
  /\ roadTerrainScore (computeRemotenessComponents (Some example_record) 3)
     = 2
  /\ roadTerrainScore (computeRemotenessComponents (Some example_record) 4)
     = 1.
Proof.
  split; [reflexivity|].
  exact (proj2 (proj2 (winter_bonus_iff example_record 1)) eq_refl).
Defined.

(** C7: for every pair of surcharge ranges, the trip range has as minimum
    the sum of the minima and as maximum the sum of the maxima, in USD as
    a lump sum, and the trip handler returns exactly this combination of
    the two endpoint surcharges. *)
Theorem totalSurcharge_sum :
  (forall A B : Surcharge,
      min (totalSurcharge A B) = min A + min B
      /\ max (totalSurcharge A B) = max A + max B
      /\ currency (totalSurcharge A B) = "USD"
      /\ type (totalSurcharge A B) = "lump_sum")
  /\ (forall st pickup_zip delivery_zip month currentMonth body,
        trip_score st pickup_zip delivery_zip month currentMonth
        = TripOk body ->
        total_suggested_surcharge body
        = totalSurcharge (ep_suggested_surcharge (pickup body))
                         (ep_suggested_surcharge (delivery body))).
Proof.
  split; [intros A B; repeat split|].
  intros st pz dz month cm body. unfold trip_score.
  destruct (negb _ || negb _); [discriminate|].
  destruct (lookup_zip st (Js.String pz)); [|discriminate].
  destruct (lookup_zip st (Js.String dz)); [|discriminate].
  intros [= <-]. reflexivity.
Qed.

(** A trip between two REMOTE_PREMIUM endpoints in January: 300..600. *)
Lemma totalSurcharge_sum_witness :
  exists body,
    trip_score sample_store (Some "59001") (Some "99950") (Some 1) 7
    = TripOk body
    /\ total_suggested_surcharge body
       = totalSurcharge (ep_suggested_surcharge (pickup body))
                        (ep_suggested_surcharge (delivery body))
    /\ min (total_suggested_surcharge body) = 300
    /\ max (total_suggested_surcharge body) = 600.
Proof.
  eexists. split; [reflexivity|]. split; [|split; reflexivity].
  apply (proj2 totalSurcharge_sum sample_store
           (Some "59001") (Some "99950") (Some 1) 7).
  reflexivity.
Defined.

(** C8: for every month, an absent record scores zero on the four
    components and in total, its category is URBAN_EASY and its surcharge
    range is 0..0; the three functions are total, so nothing can fail. *)
Theorem absent_record_scores_zero month :
  let c := computeRemotenessComponents None month in
  c = {| densityScore := 0; metroAccessScore := 0; roadTerrainScore := 0;
         carrierScore := 0; totalScore := 0 |}
  /\ categorizeScore (totalScore c) = "URBAN_EASY"
  /\ suggestedSurcharge (categorizeScore (totalScore c))
     = {| currency := "USD"; type := "lump_sum"; min := 0; max := 0 |}.
Proof. repeat split. Qed.

(** ** Properties of the store *)

Section PlainObjects.

Implicit Types (o : PlainObject) (k : string) (r z : ZipRecord).

Lemma size_empty_object : size (∅ : PlainObject) = 0%nat.
Proof. reflexivity. Qed.

Lemma object_set_size o k z :
  (size (object_set o k z) <= S (size o))%nat.
Proof.
  unfold object_set, size, PlainObject_size.
  destruct (String.eqb k "__proto__"); cbn; [lia|].
  rewrite map_size_insert. destruct (_ !! _); unfold id; lia.
Qed.

Lemma object_slot_set_eq o k z : object_slot (object_set o k z) k = Some z.
Proof.
  unfold object_slot, object_set.
  destruct (String.eqb k "__proto__"); cbn; [reflexivity|].
  apply lookup_insert_eq.
Qed.

Lemma object_slot_set_ne o k k' z :
  k <> k' -> object_slot (object_set o k z) k' = object_slot o k'.
Proof.
  intros Hne. unfold object_slot, object_set.
  destruct (String.eqb_spec k "__proto__") as [->|Hk];
    destruct (String.eqb_spec k' "__proto__") as [->|Hk']; cbn;
    try reflexivity; try contradiction.
  apply lookup_insert_ne, Hne.
Qed.

(** No assignment creates an own property named [__proto__]. *)
Lemma object_set_own_proto o k z :
  own_properties (object_set o k z) !! "__proto__"
  = own_properties o !! "__proto__".
Proof.
  unfold object_set.
  destruct (String.eqb_spec k "__proto__") as [->|Hk]; cbn; [reflexivity|].
  apply lookup_insert_ne, Hk.
Qed.

(** A filled slot is what the lookup returns. *)
Lemma object_get_slot o k r :
  own_properties o !! "__proto__" = None ->
  object_slot o k = Some r -> object_get o k = Some r.
Proof.
  unfold object_slot, object_get. intros Hown.
  destruct (String.eqb_spec k "__proto__") as [->|Hk].
  - rewrite Hown. intros ->. reflexivity.
  - intros ->. reflexivity.
Qed.

(** What a lookup can return: the slot, or a value without fields. *)
Lemma object_get_Some o k r :
  own_properties o !! "__proto__" = None ->
  object_get o k = Some r -> object_slot o k = Some r \/ r = blank_record.
Proof.
  unfold object_slot, object_get, Object_prototype_get. intros Hown.
  destruct (String.eqb_spec k "__proto__") as [->|Hk].
  - rewrite Hown. destruct (prototype o); intros [= <-]; auto.
  - destruct (own_properties o !! k); [auto|].
    destruct (prototype o) as [z|];
      [destruct (field_truthy z k) as [[|]|]|];
      try destruct (existsb _ _); intros [= <-]; auto.
Qed.

(** Lookups in the empty object find the members of [Object.prototype]. *)
Lemma object_get_empty k :
  object_get ∅ k = Object_prototype_get k.
Proof.
  unfold object_get. cbn. rewrite lookup_empty.
  destruct (String.eqb_spec k "__proto__") as [->|Hk]; reflexivity.
Qed.

Lemma Object_prototype_get_Some k :
  k ∈ Object_prototype_names -> Object_prototype_get k = Some blank_record.
Proof.
  intros Hin. unfold Object_prototype_get.
  replace (existsb (String.eqb k) Object_prototype_names) with true;
    [reflexivity|].
  symmetry. apply existsb_exists. exists k.
  split; [apply list_elem_of_In, Hin|apply String.eqb_refl].
Qed.

Lemma Object_prototype_get_None k :
  k ∉ Object_prototype_names -> Object_prototype_get k = None.
Proof.
  intros Hin. unfold Object_prototype_get.
  destruct (existsb (String.eqb k) Object_prototype_names) eqn:E;
    [|reflexivity].
  apply existsb_exists in E as (k' & Hk' & ->%String.eqb_eq).
  destruct Hin. apply list_elem_of_In, Hk'.
Qed.

End PlainObjects.

Section ForEach.

Implicit Types (idx : PlainObject) (z : Entry).
Implicit Types (entries : list Entry).

Lemma index_entry_null idx z :
  is_null z = true -> exists message, index_entry idx z = Throw message.
Proof. destruct z; [eauto|discriminate..]. Qed.

Lemma index_entry_skipped idx z :
  skipped z = true -> index_entry idx z = Normal idx.
Proof.
  destruct z as [| |r]; cbn; [discriminate|reflexivity|].
  destruct (Js.truthy_string (zip r)); [discriminate|reflexivity].
Qed.

Lemma index_entry_indexed idx r :
  Js.truthy_string (zip r) = true ->
  index_entry idx (EntryRecord r)
  = Normal (object_set idx (Js.String (zip r)) r).
Proof. intros H. cbn. rewrite H. reflexivity. Qed.

(** Without [null] the callback completes, and it adds at most one key. *)
Lemma index_entry_normal idx z :
  is_null z = false ->
  exists idx', index_entry idx z = Normal idx'
               /\ (size idx' <= S (size idx))%nat.
Proof.
  destruct z as [| |r]; cbn; [discriminate|eauto..|].
  intros _. destruct (Js.truthy_string (zip r)); [|eauto].
  eexists; split; [reflexivity|]. apply object_set_size.
Qed.

Lemma forEach_app entries1 entries2 idx :
  forEach (entries1 ++ entries2) idx
  = match forEach entries1 idx with
    | Normal idx' => forEach entries2 idx'
    | Throw message => Throw message
    end.
Proof.
  revert idx. induction entries1 as [|z rest IH]; intros idx; [reflexivity|].
  cbn. destruct (index_entry idx z); [apply IH|reflexivity].
Qed.

Lemma forEach_normal entries idx :
  existsb is_null entries = false ->
  exists idx', forEach entries idx = Normal idx'
               /\ (size idx' <= size idx + length entries)%nat.
Proof.
  revert idx. induction entries as [|z rest IH]; intros idx; cbn.
  - intros _. exists idx. split; [reflexivity|lia].
  - intros [Hz Hrest]%orb_false_elim.
    destruct (index_entry_normal idx z Hz) as (idx1 & -> & Hsize1).
    destruct (IH idx1 Hrest) as (idx' & -> & Hsize).
    exists idx'. split; [reflexivity|lia].
Qed.

Lemma forEach_throw entries idx :
  existsb is_null entries = true ->
  exists message, forEach entries idx = Throw message.
Proof.
  revert idx. induction entries as [|z rest IH]; intros idx; cbn;
    [discriminate|].
  destruct (is_null z) eqn:Hz; cbn.
  - intros _. destruct (index_entry_null idx z Hz) as [message ->]. eauto.
  - intros Hrest. destruct (index_entry idx z); [apply IH, Hrest|eauto].
Qed.

(** The loop never creates an own property named [__proto__]. *)
Lemma forEach_own_proto entries idx idx' :
  forEach entries idx = Normal idx' ->
  own_properties idx' !! "__proto__" = own_properties idx !! "__proto__".
Proof.
  revert idx. induction entries as [|z rest IH]; intros idx; cbn.
  - intros [= ->]. reflexivity.
  - destruct z as [| |r]; cbn; [discriminate|apply IH|].
    destruct (Js.truthy_string (zip r)); [|apply IH].
    intros Hrun. rewrite (IH _ Hrun). apply object_set_own_proto.
Qed.

(** Entries with another key leave the binding of [k] alone. *)
Lemma forEach_lookup_other entries idx idx' k :
  forEach entries idx = Normal idx' ->
  (forall r, EntryRecord r ∈ entries -> zip r <> Some k) ->
  object_slot idx' k = object_slot idx k.
Proof.
  revert idx. induction entries as [|z rest IH]; intros idx; cbn.
  - intros [= ->] _. reflexivity.
  - intros Hrun Hother.
    destruct (index_entry idx z) as [idx1|] eqn:Hz; [|discriminate].
    rewrite (IH idx1 Hrun) by (intros r Hr; apply Hother; set_solver).
    destruct z as [| |r]; cbn in Hz; [discriminate|congruence|].
    destruct (Js.truthy_string (zip r)) eqn:Htruthy; [|congruence].
    injection Hz as <-. apply object_slot_set_ne.
    specialize (Hother r ltac:(set_solver)).
    destruct (zip r); [cbn; congruence|discriminate].
Qed.

(** A skipped entry keeps the index strictly smaller than the array. *)
Lemma forEach_size_skipped entries idx idx' z :
  forEach entries idx = Normal idx' ->
  z ∈ entries -> skipped z = true ->
  (size idx' < size idx + length entries)%nat.
Proof.
  revert idx. induction entries as [|a rest IH]; intros idx; cbn.
  - intros _ Hin. set_solver.
  - intros Hrun Hin Hz.
    destruct (index_entry idx a) as [idx1|] eqn:Ha; [|discriminate].
    assert (Hnull : existsb is_null rest = false).
    { destruct (existsb is_null rest) eqn:E; [|reflexivity].
      destruct (forEach_throw rest idx1 E) as [m Hm]. congruence. }
    apply elem_of_cons in Hin as [<-|Hin].
    + rewrite (index_entry_skipped idx z Hz) in Ha. injection Ha as <-.
      destruct (forEach_normal rest idx Hnull) as (i & Hi & Hsize).
      assert (i = idx') by congruence. subst i. lia.
    + assert (Ha_null : is_null a = false).
      { destruct a; [discriminate|reflexivity..]. }
      destruct (index_entry_normal idx a Ha_null) as (i & Hi & Hsize1).
      assert (i = idx1) by congruence. subst i.
      specialize (IH idx1 Hrun Hin Hz). lia.
Qed.

End ForEach.

(** On an array without [null] the load installs the array and the index
    built from it. *)
Lemma loadZipData_well_formed entries st :
  existsb is_null entries = false ->
  exists idx,
    forEach entries ∅ = Normal idx
    /\ loadZipData (ParsedArray entries) st
       = ({| zipData := entries; zipIndex := idx |},
          LogLoaded (length entries)).
Proof.
  intros Hnull.
  destruct (forEach_normal entries ∅ Hnull) as (idx & Hrun & _).
  exists idx. split; [assumption|].
  unfold loadZipData, loadZipData_try. rewrite Hrun. reflexivity.
Qed.

(** Every other source makes the load fall into the [catch] block. *)
Lemma loadZipData_malformed src st :
  well_formed src = false ->
  exists message,
    loadZipData src st
    = ({| zipData := []; zipIndex := ∅ |}, ErrorLoading message).
Proof.
  unfold loadZipData, loadZipData_try.
  destruct src as [m|m|m|entries]; cbn; eauto.
  intros Hnull%negb_false_iff.
  destruct (forEach_throw entries ∅ Hnull) as [message ->]. eauto.
Qed.

(** C1 as stated fails: after a successful load of [sample_entries] the
    ZIP 59001 resolves to [example_record]; a reload whose source does not
    parse leaves the index empty, so the same lookup finds nothing, and the
    handler still answers "reloaded" with a count of 0. *)
Lemma failed_reload_loses_records :
  let out := reload_zips (ParseFails "Unexpected end of JSON input")
                         sample_store in
  lookup_zip sample_store "59001" = Some example_record
  /\ lookup_zip (fst (fst out)) "59001" = None
  /\ snd out = {| status := "reloaded"; total_zips := 0 |}.
Proof. cbv zeta. repeat split. Qed.

(** C1, amended: when a load or reload fails as a whole (the file cannot
    be read, does not parse, is not an array or holds a null element), the
    store is replaced by the empty one, whatever it held before: no ZIP
    code resolves to a record of the dataset afterwards (a key resolves
    only if it names a member of [Object.prototype], which the empty index
    inherits, and then to a value with none of the record fields); the
    failure is written to the console only, and the reload handler answers
    with status "reloaded" and a count of 0. *)
Theorem failed_reload_empties_store src st :
  well_formed src = false ->
  exists message,
    reload_zips src st
    = ({| zipData := []; zipIndex := ∅ |},
       ErrorLoading message,
       {| status := "reloaded"; total_zips := 0 |})
    /\ (forall zip, zip ∉ Object_prototype_names ->
          lookup_zip (fst (fst (reload_zips src st))) zip = None)
    /\ (forall zip, zip ∈ Object_prototype_names ->
          lookup_zip (fst (fst (reload_zips src st))) zip
          = Some blank_record).
Proof.
  intros Hsrc. destruct (loadZipData_malformed src st Hsrc) as [message Hload].
  exists message. unfold reload_zips. rewrite Hload. cbn [fst snd zipData].
  split; [reflexivity|]. unfold lookup_zip. cbn [zipIndex].
  split; intros zip Hzip; rewrite object_get_empty.
  - apply Object_prototype_get_None, Hzip.
  - apply Object_prototype_get_Some, Hzip.
Qed.

(** A reload from an array with a [null] element, on a loaded store: the
    ZIP code 59001 no longer resolves, [toString] does. *)
Lemma failed_reload_empties_store_witness :
  let src := ParsedArray [EntryRecord example_record; EntryNull] in
  well_formed src = false
  /\ lookup_zip (fst (fst (reload_zips src sample_store))) "59001" = None
  /\ lookup_zip (fst (fst (reload_zips src sample_store))) "toString"
     = Some blank_record.
Proof.
  cbv zeta. split; [reflexivity|].
  destruct (failed_reload_empties_store
              (ParsedArray [EntryRecord example_record; EntryNull])
              sample_store eq_refl) as (message & _ & Hnone & Hsome).
  split.
  - apply Hnone. apply (bool_decide_unpack _). reflexivity.
  - apply Hsome. apply (bool_decide_unpack _). reflexivity.
Defined.

(** C9: when the array holds several records with the same key, the load
    succeeds (the whole array is installed and its length logged) and the
    key resolves to the record that comes last among them. *)
Theorem last_duplicate_wins entries1 r entries2 k st :
  existsb is_null (entries1 ++ EntryRecord r :: entries2) = false ->
  zip r = Some k ->
  Js.truthy_string (zip r) = true ->
  (forall r', EntryRecord r' ∈ entries2 -> zip r' <> Some k) ->
  let entries := entries1 ++ EntryRecord r :: entries2 in
  let out := loadZipData (ParsedArray entries) st in
  lookup_zip (fst out) k = Some r
  /\ zipData (fst out) = entries
  /\ snd out = LogLoaded (length entries).
Proof.
  intros Hnull Hk Htruthy Hlast. cbv zeta.
  destruct (loadZipData_well_formed _ st Hnull) as (idx & Hrun & ->).
  cbn [fst snd zipData]. repeat split.
  unfold lookup_zip. cbn [zipIndex].
  rewrite forEach_app in Hrun.
  destruct (forEach entries1 ∅) as [idx1|] eqn:Hidx1; [|discriminate].
  cbn [forEach] in Hrun.
  rewrite (index_entry_indexed idx1 r Htruthy) in Hrun.
  apply object_get_slot.
  - rewrite (forEach_own_proto _ _ _ Hrun), object_set_own_proto.
    rewrite (forEach_own_proto _ _ _ Hidx1). apply lookup_empty.
  - rewrite (forEach_lookup_other _ _ _ k Hrun Hlast).
    rewrite Hk. cbn [Js.String]. apply object_slot_set_eq.
Qed.

(** Two entries for 59001 followed by other entries: the lookup returns
    the second of the two. *)
Lemma last_duplicate_wins_witness :
  let entries :=
    [EntryRecord example_record]
    ++ EntryRecord example_record_dup
       :: [EntryRecord remote_island_record; EntryOther] in
  let out := loadZipData (ParsedArray entries) initial_store in
  lookup_zip (fst out) "59001" = Some example_record_dup
  /\ zipData (fst out) = entries
  /\ snd out = LogLoaded (length entries).
Proof.
  apply (last_duplicate_wins
           [EntryRecord example_record]
           example_record_dup
           [EntryRecord remote_island_record; EntryOther]
           "59001" initial_store).
  - reflexivity.
  - reflexivity.
  - reflexivity.
  - intros r' Hin.
    apply elem_of_cons in Hin as [Heq|Hin].
    + injection Heq as ->. discriminate.
    + apply elem_of_cons in Hin as [Heq|Hin]; [discriminate|].
      apply elem_of_nil in Hin. destruct Hin.
Defined.

(** C10: after a successful reload the count in the response is the length
    of the parsed array, not the number of keys in the index: the index
    never has more keys than that, and it has strictly fewer as soon as one
    element was skipped for a missing or falsy key. *)
Theorem reload_counts_parsed_entries entries st :
  existsb is_null entries = false ->
  let out := reload_zips (ParsedArray entries) st in
  let st' := fst (fst out) in
  total_zips (snd out) = length entries
  /\ zipData st' = entries
  /\ (size (zipIndex st') <= total_zips (snd out))%nat
  /\ ((exists z, z ∈ entries /\ skipped z = true) ->
      (size (zipIndex st') < total_zips (snd out))%nat).
Proof.
  intros Hnull. cbv zeta. unfold reload_zips.
  destruct (loadZipData_well_formed entries st Hnull) as (idx & Hrun & ->).
  cbn [fst snd zipData zipIndex total_zips]. repeat split.
  - destruct (forEach_normal entries ∅ Hnull) as (idx' & Hrun' & Hsize).
    assert (idx' = idx) by congruence. subst idx'.
    rewrite size_empty_object in Hsize. lia.
  - intros (z & Hin & Hz).
    pose proof (forEach_size_skipped entries ∅ idx z Hrun Hin Hz) as Hsize.
    rewrite size_empty_object in Hsize. lia.
Qed.

(** One record, one entry without [zip], one non-object: the count is 3
    and the index has fewer keys. *)
Lemma reload_counts_parsed_entries_witness :
  let entries :=
    [EntryRecord example_record; EntryRecord keyless_record; EntryOther] in
  let out := reload_zips (ParsedArray entries) sample_store in
  total_zips (snd out) = 3%nat
  /\ (size (zipIndex (fst (fst out))) < total_zips (snd out))%nat.
Proof.
  cbv zeta.
  pose proof (reload_counts_parsed_entries
                [EntryRecord example_record; EntryRecord keyless_record;
                 EntryOther]
                sample_store eq_refl) as (Hcount & _ & _ & Hless).
  split; [exact Hcount|]. apply Hless.
  exists (EntryRecord keyless_record). split; [|reflexivity].
  apply list_elem_of_further, list_elem_of_here.
Defined.

(** ** Further properties of the scoring engine *)

(** X1: upper bounds of the four sub-scores, for every record and month:
    density at most 2, metro access at most 3, road/terrain at most 3 and
    carrier at most 2. *)
Theorem components_upper_bounds zipRecord month :
  let c := computeRemotenessComponents zipRecord month in
  densityScore c <= 2 /\ metroAccessScore c <= 3
  /\ roadTerrainScore c <= 3 /\ carrierScore c <= 2.
Proof.
  destruct zipRecord as [r|]; [|cbn; lia].
  destruct (computeRemotenessComponents_Some r month)
    as (Hd & Hm & Hr & Hc & _).
  cbv zeta. rewrite Hd, Hm, Hr, Hc. part_ranges r month. lia.
Qed.

(** X2: the month reaches the result through the road/terrain score only:
    between any two months the density, metro access and carrier scores
    are equal, the road/terrain scores differ by at most 1, and the totals
    differ by exactly the difference of the road/terrain scores. *)
Theorem month_moves_only_roadTerrain zipRecord month1 month2 :
  let c1 := computeRemotenessComponents zipRecord month1 in
  let c2 := computeRemotenessComponents zipRecord month2 in
  densityScore c1 = densityScore c2
  /\ metroAccessScore c1 = metroAccessScore c2
  /\ carrierScore c1 = carrierScore c2
  /\ -1 <= roadTerrainScore c1 - roadTerrainScore c2 <= 1
  /\ totalScore c1 - totalScore c2
     = roadTerrainScore c1 - roadTerrainScore c2.
Proof.
  destruct zipRecord as [r|]; [|cbn; lia].
  destruct (computeRemotenessComponents_Some r month1)
    as (Hd1 & Hm1 & Hr1 & Hc1 & Ht1).
  destruct (computeRemotenessComponents_Some r month2)
    as (Hd2 & Hm2 & Hr2 & Hc2 & Ht2).
  cbv zeta. rewrite Ht1, Ht2, Hd1, Hd2, Hm1, Hm2, Hr1, Hr2, Hc1, Hc2.
  pose proof (winter_part_range (Js.truthy_flag (winter_risk r)) month1).
  pose proof (winter_part_range (Js.truthy_flag (winter_risk r)) month2).
  lia.
Qed.

(** X3: a record whose winter-risk flag is missing or false scores the same in
    every month. *)
Theorem no_winter_risk_same_all_year r month1 month2 :
  Js.truthy_flag (winter_risk r) = false ->
  computeRemotenessComponents (Some r) month1
  = computeRemotenessComponents (Some r) month2.
Proof.
  intros Hw. unfold computeRemotenessComponents, winter_part.
  rewrite Hw. reflexivity.
Qed.

Lemma no_winter_risk_same_all_year_witness :
  computeRemotenessComponents (Some example_record_dup) 1
  = computeRemotenessComponents (Some example_record_dup) 7.
Proof.
  apply (no_winter_risk_same_all_year example_record_dup 1 7). reflexivity.
Defined.

(** X4: a record in which the seven scoring fields are all missing scores zero
    everywhere, exactly like an absent record. *)
Theorem missing_fields_score_zero r month :
  population_density r = None ->
  drive_time_city_100k_min r = None ->
  drive_time_interstate_min r = None ->
  is_mountain r = None ->
  is_island r = None ->
  winter_risk r = None ->
  carrier_scarcity_index r = None ->
  computeRemotenessComponents (Some r) month
  = computeRemotenessComponents None month.
Proof.
  intros Hd Hc Hi Hm Hs Hw Hk. unfold computeRemotenessComponents.
  rewrite Hd, Hc, Hi, Hm, Hs, Hw, Hk. reflexivity.
Qed.

Lemma missing_fields_score_zero_witness :
  computeRemotenessComponents (Some keyless_record) 1
  = computeRemotenessComponents None 1.
Proof.
  apply (missing_fields_score_zero keyless_record 1); reflexivity.
Defined.

(** *** Order on the numeric inputs *)

Section FloatOrder.

(** Case analysis on the integer and positive comparisons inside
    [SFcompare]. *)
Ltac order_cases :=
  repeat match goal with
  | H : context [Z.compare ?x ?y] |- _ => destruct (Z.compare_spec x y)
  | H : context [Pos.compare_cont Eq ?x ?y] |- _ =>
      change (Pos.compare_cont Eq x y) with (Pos.compare x y) in H;
      destruct (Pos.compare_spec x y)
  | |- context [Z.compare ?x ?y] => destruct (Z.compare_spec x y)
  | |- context [Pos.compare_cont Eq ?x ?y] =>
      change (Pos.compare_cont Eq x y) with (Pos.compare x y);
      destruct (Pos.compare_spec x y)
  end.

Ltac float_cases a b c :=
  unfold SFleb, SFltb;
  destruct a as [[|]|[|]| |[|] ? ?], b as [[|]|[|]| |[|] ? ?],
           c as [[|]|[|]| |[|] ? ?]; cbn;
  try discriminate; try reflexivity;
  intros ? ?; order_cases; cbn in *;
  try discriminate; try reflexivity; try lia.

Lemma SFleb_ltb_trans a b c :
  SFleb a b = true -> SFltb b c = true -> SFltb a c = true.
Proof. float_cases a b c. Qed.

Lemma SFltb_leb_trans a b c :
  SFltb a b = true -> SFleb b c = true -> SFltb a c = true.
Proof. float_cases a b c. Qed.

(** [a <= b] and [b < c] give [a < c] on binary64 numbers. *)
Lemma leb_ltb_trans (a b c : float) :
  (a <=? b)%float = true -> Js.lt b c = true -> Js.lt a c = true.
Proof.
  unfold Js.lt. rewrite leb_spec, !ltb_spec. apply SFleb_ltb_trans.
Qed.

(** [c < a] and [a <= b] give [c < b]. *)
Lemma gt_leb_trans (a b c : float) :
  (a <=? b)%float = true -> Js.gt a c = true -> Js.gt b c = true.
Proof.
  unfold Js.gt. rewrite leb_spec, !ltb_spec. intros Hab Hca.
  exact (SFltb_leb_trans _ _ _ Hca Hab).
Qed.

End FloatOrder.

(** *** Monotonicity in the numeric inputs *)

Lemma density_part_antitone d1 d2 :
  (d1 <=? d2)%float = true ->
  density_part (Some d2) <= density_part (Some d1).
Proof.
  intros Hle. unfold density_part. cbv beta iota.
  destruct (Js.lt d2 150) eqn:H150.
  - rewrite (leb_ltb_trans d1 d2 150 Hle H150). lia.
  - destruct (Js.lt d2 500) eqn:H500.
    + rewrite (leb_ltb_trans d1 d2 500 Hle H500).
      destruct (Js.lt d1 150); lia.
    + destruct (Js.lt d1 150); [lia|]. destruct (Js.lt d1 500); lia.
Qed.

Lemma driveCity_part_monotone t1 t2 :
  (t1 <=? t2)%float = true ->
  driveCity_part (Some t1) <= driveCity_part (Some t2).
Proof.
  intros Hle. unfold driveCity_part. cbv beta iota.
  destruct (Js.gt t1 90) eqn:H90.
  - rewrite (gt_leb_trans t1 t2 90 Hle H90). lia.
  - destruct (Js.gt t1 60) eqn:H60.
    + rewrite (gt_leb_trans t1 t2 60 Hle H60).
      destruct (Js.gt t2 90); lia.
    + destruct (Js.gt t2 90); [lia|]. destruct (Js.gt t2 60); lia.
Qed.

Lemma driveInterstate_part_monotone t1 t2 :
  (t1 <=? t2)%float = true ->
  driveInterstate_part (Some t1) <= driveInterstate_part (Some t2).
Proof.
  intros Hle. unfold driveInterstate_part. cbv beta iota.
  destruct (Js.gt t1 30) eqn:H30.
  - rewrite (gt_leb_trans t1 t2 30 Hle H30). lia.
  - destruct (Js.gt t2 30); lia.
Qed.

Lemma carrier_part_monotone c1 c2 :
  (c1 <=? c2)%float = true -> carrier_part c1 <= carrier_part c2.
Proof.
  intros Hle. unfold carrier_part.
  destruct (Js.gt c1 0.7) eqn:H7.
  - rewrite (gt_leb_trans c1 c2 0.7 Hle H7). lia.
  - destruct (Js.gt c1 0.4) eqn:H4.
    + rewrite (gt_leb_trans c1 c2 0.4 Hle H4).
      destruct (Js.gt c2 0.7); lia.
    + destruct (Js.gt c2 0.7); [lia|]. destruct (Js.gt c2 0.4); lia.
Qed.

(** X5: a lower population density never gives a lower density score: if,
    whenever the second record has a density, the first has one that is at
    most as large, the first record's density score is at least the
    second's, in any months. *)
Theorem densityScore_antitone r1 r2 month1 month2 :
  (forall d2, population_density r2 = Some d2 ->
     exists d1, population_density r1 = Some d1
                /\ (d1 <=? d2)%float = true) ->
  densityScore (computeRemotenessComponents (Some r2) month2)
  <= densityScore (computeRemotenessComponents (Some r1) month1).
Proof.
  intros Hle.
  destruct (computeRemotenessComponents_Some r1 month1) as (-> & _).
  destruct (computeRemotenessComponents_Some r2 month2) as (-> & _).
  destruct (population_density r2) as [d2|].
  - destruct (Hle d2 eq_refl) as (d1 & -> & Hd).
    apply density_part_antitone, Hd.
  - apply density_part_range.
Qed.

Lemma densityScore_antitone_witness :
  densityScore (computeRemotenessComponents (Some example_record_dup) 6)
  <= densityScore (computeRemotenessComponents (Some example_record) 1).
Proof.
  apply (densityScore_antitone example_record example_record_dup 1 6).
  intros d2 [= <-]. exists 100%float. split; reflexivity.
Defined.

(** X6: longer drive times never give a lower metro access score: if, for the
    drive to a 100k city and for the drive to the interstate, the second
    record has a time at least as long whenever the first has one, the
    second record's metro access score is at least the first's. *)
Theorem metroAccessScore_monotone r1 r2 month1 month2 :
  (forall t1, drive_time_city_100k_min r1 = Some t1 ->
     exists t2, drive_time_city_100k_min r2 = Some t2
                /\ (t1 <=? t2)%float = true) ->
  (forall t1, drive_time_interstate_min r1 = Some t1 ->
     exists t2, drive_time_interstate_min r2 = Some t2
                /\ (t1 <=? t2)%float = true) ->
  metroAccessScore (computeRemotenessComponents (Some r1) month1)
  <= metroAccessScore (computeRemotenessComponents (Some r2) month2).
Proof.
  intros Hcity Hroad.
  destruct (computeRemotenessComponents_Some r1 month1) as (_ & -> & _).
  destruct (computeRemotenessComponents_Some r2 month2) as (_ & -> & _).
  assert (driveCity_part (drive_time_city_100k_min r1)
          <= driveCity_part (drive_time_city_100k_min r2)) as H1.
  { destruct (drive_time_city_100k_min r1) as [t1|].
    - destruct (Hcity t1 eq_refl) as (t2 & -> & Ht).
      apply driveCity_part_monotone, Ht.
    - apply driveCity_part_range. }
  assert (driveInterstate_part (drive_time_interstate_min r1)
          <= driveInterstate_part (drive_time_interstate_min r2)) as H2.
  { destruct (drive_time_interstate_min r1) as [t1|].
    - destruct (Hroad t1 eq_refl) as (t2 & -> & Ht).
      apply driveInterstate_part_monotone, Ht.
    - apply driveInterstate_part_range. }
  lia.
Qed.

Lemma metroAccessScore_monotone_witness :
  metroAccessScore (computeRemotenessComponents (Some example_record) 1)
  <= metroAccessScore
       (computeRemotenessComponents (Some remote_island_record) 1).
Proof.
  apply (metroAccessScore_monotone example_record remote_island_record 1 1).
  - intros t1 [= <-]. exists 600%float. split; reflexivity.
  - intros t1 [= <-]. exists 600%float. split; reflexivity.
Defined.

(** X7: a higher carrier scarcity index never gives a lower carrier score, a
    missing index counting as 0. *)
Theorem carrierScore_monotone r1 r2 month1 month2 :
  (Js.nullish (carrier_scarcity_index r1) 0
   <=? Js.nullish (carrier_scarcity_index r2) 0)%float = true ->
  carrierScore (computeRemotenessComponents (Some r1) month1)
  <= carrierScore (computeRemotenessComponents (Some r2) month2).
Proof.
  intros Hle.
  destruct (computeRemotenessComponents_Some r1 month1)
    as (_ & _ & _ & -> & _).
  destruct (computeRemotenessComponents_Some r2 month2)
    as (_ & _ & _ & -> & _).
  apply carrier_part_monotone, Hle.
Qed.

Lemma carrierScore_monotone_witness :
  carrierScore (computeRemotenessComponents (Some keyless_record) 1)
  <= carrierScore (computeRemotenessComponents (Some example_record) 1).
Proof.
  apply (carrierScore_monotone keyless_record example_record 1 1).
  reflexivity.
Defined.

(** *** Category and surcharge *)

(** The surcharge of a total, band by band. *)
Lemma surcharge_of_total totalScore :
  let s := suggestedSurcharge (categorizeScore totalScore) in
  (totalScore <= 2 /\ min s = 0 /\ max s = 0)
  \/ (3 <= totalScore <= 4 /\ min s = 25 /\ max s = 50)
  \/ (5 <= totalScore <= 6 /\ min s = 75 /\ max s = 150)
  \/ (7 <= totalScore /\ min s = 150 /\ max s = 300).
Proof.
  unfold categorizeScore.
  destruct (Z.leb_spec totalScore 2);
    [|destruct (Z.leb_spec totalScore 4);
      [|destruct (Z.leb_spec totalScore 6)]]; cbn; lia.
Qed.

(** X9: whatever string it is given, [suggestedSurcharge] returns a range in
    USD, of type lump_sum, with 0 <= min <= max <= 300 and max twice
    min. *)
Theorem suggestedSurcharge_well_formed category :
  let s := suggestedSurcharge category in
  currency s = "USD" /\ type s = "lump_sum"
  /\ 0 <= min s <= max s /\ max s <= 300 /\ max s = 2 * min s.
Proof.
  unfold suggestedSurcharge.
  destruct (String.eqb category "URBAN_EASY"); [cbn; repeat split; lia|].
  destruct (String.eqb category "NORMAL"); [cbn; repeat split; lia|].
  destruct (String.eqb category "RURAL_DIFFICULT");
    [cbn; repeat split; lia|].
  destruct (String.eqb category "REMOTE_PREMIUM"); cbn; repeat split; lia.
Qed.

(** X10: a string that is none of the four category names, for instance a name
    in another letter case, gets the zero range of the default branch. *)
Theorem suggestedSurcharge_unknown_category category :
  category <> "URBAN_EASY" -> category <> "NORMAL" ->
  category <> "RURAL_DIFFICULT" -> category <> "REMOTE_PREMIUM" ->
  suggestedSurcharge category
  = {| currency := "USD"; type := "lump_sum"; min := 0; max := 0 |}.
Proof.
  intros H1 H2 H3 H4. unfold suggestedSurcharge.
  apply String.eqb_neq in H1, H2, H3, H4.
  rewrite H1, H2, H3, H4. reflexivity.
Qed.

Lemma suggestedSurcharge_unknown_category_witness :
  suggestedSurcharge "remote_premium"
  = {| currency := "USD"; type := "lump_sum"; min := 0; max := 0 |}.
Proof.
  apply (suggestedSurcharge_unknown_category "remote_premium");
    discriminate.
Defined.

(** X11: a higher total never lowers the surcharge: both ends of the range of
    the category of a total are monotone in the total. *)
Theorem surcharge_monotone_in_total totalScore1 totalScore2 :
  totalScore1 <= totalScore2 ->
  min (suggestedSurcharge (categorizeScore totalScore1))
  <= min (suggestedSurcharge (categorizeScore totalScore2))
  /\ max (suggestedSurcharge (categorizeScore totalScore1))
     <= max (suggestedSurcharge (categorizeScore totalScore2)).
Proof.
  intros Hle.
  pose proof (surcharge_of_total totalScore1) as H1.
  pose proof (surcharge_of_total totalScore2) as H2.
  cbv zeta in H1, H2. lia.
Qed.

Lemma surcharge_monotone_in_total_witness :
  min (suggestedSurcharge (categorizeScore 4))
  <= min (suggestedSurcharge (categorizeScore 9))
  /\ max (suggestedSurcharge (categorizeScore 4))
     <= max (suggestedSurcharge (categorizeScore 9)).
Proof. apply (surcharge_monotone_in_total 4 9). lia. Defined.


(** *** Month normalisation *)

(** The range of a normalised month. *)
Lemma normalizeMonth_in_range m currentMonth :
  1 <= currentMonth <= 12 -> 1 <= normalizeMonth m currentMonth <= 12.
Proof.
  intros Hc. unfold normalizeMonth. destruct m as [m|]; [|lia].
  destruct (Z.ltb_spec m 1); cbn; [lia|].
  destruct (Z.gtb_spec m 12); lia.
Qed.

(** X13: with the current month in 1..12, as [getMonth() + 1] always is, the
    normalised month is in 1..12 for every request, and it is the month
    that was asked for or else the current month. *)
Theorem normalizeMonth_range m currentMonth :
  1 <= currentMonth <= 12 ->
  1 <= normalizeMonth m currentMonth <= 12
  /\ (m = Some (normalizeMonth m currentMonth)
      \/ normalizeMonth m currentMonth = currentMonth).
Proof.
  intros Hc. split; [apply normalizeMonth_in_range, Hc|].
  unfold normalizeMonth. destruct m as [m|]; [|right; reflexivity].
  destruct (_ || _); [right|left]; reflexivity.
Qed.

Lemma normalizeMonth_range_witness :
  1 <= normalizeMonth (Some 13) 6 <= 12
  /\ (Some 13 = Some (normalizeMonth (Some 13) 6)
      \/ normalizeMonth (Some 13) 6 = 6).
Proof. apply (normalizeMonth_range (Some 13) 6). lia. Defined.

(** X14: normalising is idempotent: a normalised month sent again as the month
    parameter comes back unchanged, whatever the current month is. *)
Theorem normalizeMonth_idempotent m currentMonth :
  normalizeMonth (Some (normalizeMonth m currentMonth)) currentMonth
  = normalizeMonth m currentMonth.
Proof.
  unfold normalizeMonth. destruct m as [m|].
  - destruct (Z.ltb_spec m 1); cbn.
    + destruct (_ || _); reflexivity.
    + destruct (Z.gtb_spec m 12); cbn.
      * destruct (_ || _); reflexivity.
      * destruct (Z.ltb_spec m 1); [lia|].
        destruct (Z.gtb_spec m 12); [lia|]. reflexivity.
  - destruct (_ || _); reflexivity.
Qed.

(** *** Scoring end to end *)

(** X8: between two records scored in the same month, the one that is at least
    as remote on every input (density at most as high, drive times and
    scarcity at least as high, every flag of the other set in it as well)
    gets a total that is at least as high and a surcharge range whose two
    ends are at least as high. *)
Theorem remoter_record_costs_more r1 r2 month :
  (forall d1, population_density r1 = Some d1 ->
     exists d2, population_density r2 = Some d2
                /\ (d2 <=? d1)%float = true) ->
  (forall t1, drive_time_city_100k_min r1 = Some t1 ->
     exists t2, drive_time_city_100k_min r2 = Some t2
                /\ (t1 <=? t2)%float = true) ->
  (forall t1, drive_time_interstate_min r1 = Some t1 ->
     exists t2, drive_time_interstate_min r2 = Some t2
                /\ (t1 <=? t2)%float = true) ->
  (Js.nullish (carrier_scarcity_index r1) 0
   <=? Js.nullish (carrier_scarcity_index r2) 0)%float = true ->
  (Js.truthy_flag (is_mountain r1) = true ->
   Js.truthy_flag (is_mountain r2) = true) ->
  (Js.truthy_flag (is_island r1) = true ->
   Js.truthy_flag (is_island r2) = true) ->
  (Js.truthy_flag (winter_risk r1) = true ->
   Js.truthy_flag (winter_risk r2) = true) ->
  let total r := totalScore (computeRemotenessComponents (Some r) month) in
  total r1 <= total r2
  /\ min (suggestedSurcharge (categorizeScore (total r1)))
     <= min (suggestedSurcharge (categorizeScore (total r2)))
  /\ max (suggestedSurcharge (categorizeScore (total r1)))
     <= max (suggestedSurcharge (categorizeScore (total r2))).
Proof.
  intros Hdens Hcity Hroad Hcarrier Hmountain Hisland Hwinter.
  cbv beta zeta.
  assert (Htotal :
    totalScore (computeRemotenessComponents (Some r1) month)
    <= totalScore (computeRemotenessComponents (Some r2) month)).
  { destruct (computeRemotenessComponents_Some r1 month)
      as (Hd1 & Hm1 & Hr1 & Hc1 & Ht1).
    destruct (computeRemotenessComponents_Some r2 month)
      as (Hd2 & Hm2 & Hr2 & Hc2 & Ht2).
    rewrite Ht1, Ht2, Hd1, Hd2, Hm1, Hm2, Hr1, Hr2, Hc1, Hc2.
    assert (density_part (population_density r1)
            <= density_part (population_density r2)).
    { destruct (population_density r1) as [d1|].
      - destruct (Hdens d1 eq_refl) as (d2 & -> & Hd).
        apply density_part_antitone, Hd.
      - apply density_part_range. }
    assert (driveCity_part (drive_time_city_100k_min r1)
            <= driveCity_part (drive_time_city_100k_min r2)).
    { destruct (drive_time_city_100k_min r1) as [t1|].
      - destruct (Hcity t1 eq_refl) as (t2 & -> & Ht).
        apply driveCity_part_monotone, Ht.
      - apply driveCity_part_range. }
    assert (driveInterstate_part (drive_time_interstate_min r1)
            <= driveInterstate_part (drive_time_interstate_min r2)).
    { destruct (drive_time_interstate_min r1) as [t1|].
      - destruct (Hroad t1 eq_refl) as (t2 & -> & Ht).
        apply driveInterstate_part_monotone, Ht.
      - apply driveInterstate_part_range. }
    pose proof (carrier_part_monotone _ _ Hcarrier).
    assert (terrain_part (Js.truthy_flag (is_mountain r1))
                         (Js.truthy_flag (is_island r1))
            <= terrain_part (Js.truthy_flag (is_mountain r2))
                            (Js.truthy_flag (is_island r2))).
    { unfold terrain_part.
      destruct (Js.truthy_flag (is_mountain r1));
        [rewrite Hmountain by reflexivity|];
        (destruct (Js.truthy_flag (is_island r1));
           [rewrite Hisland by reflexivity|]);
        repeat match goal with
               | |- context [if ?b then _ else _] => destruct b
               end; lia. }
    assert (winter_part (Js.truthy_flag (winter_risk r1)) month
            <= winter_part (Js.truthy_flag (winter_risk r2)) month).
    { unfold winter_part.
      destruct (Js.truthy_flag (winter_risk r1));
        [rewrite Hwinter by reflexivity; lia|].
      cbn. destruct (_ && _); lia. }
    lia. }
  split; [exact Htotal|].
  pose proof (surcharge_of_total
                (totalScore (computeRemotenessComponents (Some r1) month)))
    as H1.
  pose proof (surcharge_of_total
                (totalScore (computeRemotenessComponents (Some r2) month)))
    as H2.
  cbv zeta in H1, H2. lia.
Qed.

Lemma remoter_record_costs_more_witness :
  let total r := totalScore (computeRemotenessComponents (Some r) 1) in
  total example_record_dup <= total remote_island_record
  /\ min (suggestedSurcharge (categorizeScore (total example_record_dup)))
     <= min (suggestedSurcharge
               (categorizeScore (total remote_island_record)))
  /\ max (suggestedSurcharge (categorizeScore (total example_record_dup)))
     <= max (suggestedSurcharge
               (categorizeScore (total remote_island_record))).
Proof.
  apply (remoter_record_costs_more example_record_dup remote_island_record 1).
  - intros d1 [= <-]. exists 3%float. split; reflexivity.
  - intros t1 [=].
  - intros t1 [=].
  - reflexivity.
  - discriminate.
  - discriminate.
  - discriminate.
Defined.

(** ** Further properties of the store *)

Section Index.

Implicit Types (idx : PlainObject) (z : Entry).
Implicit Types (entries : list Entry) (k : string) (r : ZipRecord).

(** A filed element is a record with a non-empty [zip], which is its key. *)
Lemma entry_key_Some z k :
  entry_key z = Some k
  <-> exists r, z = EntryRecord r /\ zip r = Some k /\ k <> "".
Proof.
  split.
  - destruct z as [| |r]; cbn; [discriminate..|].
    destruct (zip r) as [s|] eqn:Hzip; cbn; [|discriminate].
    destruct (String.eqb_spec s ""); cbn; [discriminate|].
    intros [= <-]. eauto.
  - intros (r & -> & Hzip & Hk). cbn. rewrite Hzip. cbn.
    destruct (String.eqb_spec k ""); [contradiction|reflexivity].
Qed.

(** One step of the loop in terms of [entry_key]. *)
Lemma index_entry_key idx z :
  is_null z = false ->
  index_entry idx z
  = Normal match z, entry_key z with
           | EntryRecord r, Some k => object_set idx k r
           | _, _ => idx
           end.
Proof.
  destruct z as [| |r]; cbn; [discriminate|reflexivity|].
  intros _. destruct (Js.truthy_string (zip r)); reflexivity.
Qed.

(** The own keys after the loop: those before it and those of the
    elements. *)
Lemma forEach_own_dom entries idx idx' :
  forEach entries idx = Normal idx' ->
  dom (own_properties idx')
  = dom (own_properties idx) ∪ list_to_set (omap own_key entries).
Proof.
  revert idx. induction entries as [|z rest IH]; intros idx.
  - cbn. intros [= ->]. rewrite (right_id_L ∅ (∪)). reflexivity.
  - cbn [forEach]. destruct (is_null z) eqn:Hz.
    { destruct (index_entry_null idx z Hz) as [m ->]. discriminate. }
    rewrite (index_entry_key idx z Hz). intros Hrun.
    rewrite (IH _ Hrun). cbn [omap list_omap]. unfold own_key at 2.
    destruct z as [| |r]; [discriminate|reflexivity|].
    destruct (entry_key (EntryRecord r)) as [k|]; [|reflexivity].
    unfold object_set. destruct (String.eqb k "__proto__"); [reflexivity|].
    cbn [own_properties]. rewrite list_to_set_cons, dom_insert_L.
    rewrite (comm_L (∪) {[k]} (dom (own_properties idx))).
    rewrite (assoc_L (∪)). reflexivity.
Qed.

(** Where a binding of the final index comes from. *)
Lemma forEach_slot_Some entries idx idx' k r :
  forEach entries idx = Normal idx' ->
  object_slot idx' k = Some r ->
  object_slot idx k = Some r
  \/ (EntryRecord r ∈ entries /\ entry_key (EntryRecord r) = Some k).
Proof.
  revert idx. induction entries as [|z rest IH]; intros idx; cbn.
  - intros [= ->] Hk. left. exact Hk.
  - destruct z as [| |r0]; cbn; [discriminate|..].
    + intros Hrun Hk. destruct (IH idx Hrun Hk) as [?|[? ?]];
        [left; assumption|right; split; [set_solver|assumption]].
    + destruct (Js.truthy_string (zip r0)) eqn:Htruthy; intros Hrun Hk;
        (destruct (IH _ Hrun Hk) as [Hold|[? ?]];
          [|right; split; [set_solver|assumption]]).
      * destruct (decide (Js.String (zip r0) = k)) as [<-|Hne].
        -- rewrite object_slot_set_eq in Hold. injection Hold as <-.
           right. split; [set_solver|]. cbn. rewrite Htruthy. reflexivity.
        -- rewrite object_slot_set_ne in Hold by assumption.
           left. exact Hold.
      * left. exact Hold.
Qed.

(** A key that was filed, or was bound before, is bound after the loop. *)
Lemma forEach_slot_is_Some entries idx idx' k :
  forEach entries idx = Normal idx' ->
  is_Some (object_slot idx k)
  \/ (exists z, z ∈ entries /\ entry_key z = Some k) ->
  is_Some (object_slot idx' k).
Proof.
  revert idx. induction entries as [|z rest IH]; intros idx.
  - cbn. intros [= ->] [?|(z & Hin & _)]; [assumption|].
    apply elem_of_nil in Hin. destruct Hin.
  - cbn [forEach]. intros Hrun Hk.
    destruct (index_entry idx z) as [idx1|] eqn:Hstep; [|discriminate].
    apply (IH _ Hrun).
    assert (Hkeep : is_Some (object_slot idx k) ->
                    is_Some (object_slot idx1 k)).
    { destruct z as [| |r]; cbn in Hstep; [discriminate|congruence|].
      destruct (Js.truthy_string (zip r)); [|congruence].
      injection Hstep as <-. intros Hbound.
      destruct (decide (Js.String (zip r) = k)) as [->|Hne].
      - rewrite object_slot_set_eq. eauto.
      - rewrite object_slot_set_ne by assumption. assumption. }
    destruct Hk as [Hbound|(z' & Hin & Hkey)]; [left; auto|].
    apply elem_of_cons in Hin as [->|Hin]; [|right; eauto].
    left. destruct z as [| |r]; cbn in Hkey, Hstep; [discriminate..|].
    destruct (Js.truthy_string (zip r)); [|discriminate].
    injection Hkey as <-. injection Hstep as <-.
    rewrite object_slot_set_eq. eauto.
Qed.

(** Without a record filed under [__proto__] the prototype stays. *)
Lemma forEach_prototype entries idx idx' :
  forEach entries idx = Normal idx' ->
  (forall r, EntryRecord r ∈ entries -> zip r <> Some "__proto__") ->
  prototype idx' = prototype idx.
Proof.
  intros Hrun Hnone.
  exact (forEach_lookup_other entries idx idx' "__proto__" Hrun Hnone).
Qed.

End Index.

(** The three outcomes of a lookup after a successful load of an array in
    which no record is filed under [__proto__]: a record of the array with
    that [zip]; or, for a name of [Object.prototype] that no record has, an
    inherited value; or nothing. *)
Lemma loaded_lookup_cases entries st k :
  existsb is_null entries = false ->
  (forall r, EntryRecord r ∈ entries -> zip r <> Some "__proto__") ->
  let found := lookup_zip (fst (loadZipData (ParsedArray entries) st)) k in
  let in_array :=
    exists r, EntryRecord r ∈ entries /\ zip r = Some k /\ k <> "" in
  (exists r, found = Some r
             /\ EntryRecord r ∈ entries /\ zip r = Some k /\ k <> "")
  \/ (found = Some blank_record
      /\ k ∈ Object_prototype_names /\ ~ in_array)
  \/ (found = None /\ (k ∉ Object_prototype_names) /\ ~ in_array).
Proof.
  intros Hnull Hnoproto. cbv zeta.
  destruct (loadZipData_well_formed entries st Hnull) as (idx & Hrun & ->).
  unfold lookup_zip. cbn [fst zipIndex].
  pose proof (forEach_own_proto entries ∅ idx Hrun) as Hown.
  cbn in Hown. rewrite lookup_empty in Hown.
  pose proof (forEach_prototype entries ∅ idx Hrun Hnoproto) as Hproto.
  cbn in Hproto.
  assert (Hslot : forall o, k <> "__proto__" ->
                  object_slot o k = own_properties o !! k).
  { intros o Hk. unfold object_slot.
    destruct (String.eqb_spec k "__proto__"); [contradiction|reflexivity]. }
  destruct (own_properties idx !! k) as [r|] eqn:Hlookup.
  - left. exists r.
    assert (Hk : k <> "__proto__") by congruence.
    split; [unfold object_get; rewrite Hlookup; reflexivity|].
    rewrite <- (Hslot idx Hk) in Hlookup.
    destruct (forEach_slot_Some entries ∅ idx k r Hrun Hlookup)
      as [Hempty|[Hin Hkey]].
    + rewrite (Hslot ∅ Hk) in Hempty. cbn in Hempty.
      rewrite lookup_empty in Hempty. discriminate.
    + split; [assumption|].
      apply entry_key_Some in Hkey as (r' & [= <-] & Hzip & Hne). auto.
  - right.
    assert (Hnot : ~ exists r, EntryRecord r ∈ entries
                               /\ zip r = Some k /\ k <> "").
    { intros (r & Hin & Hzip & Hne).
      assert (Hk : k <> "__proto__").
      { intros ->. exact (Hnoproto r Hin Hzip). }
      assert (is_Some (object_slot idx k)) as [r' Hr'].
      { apply (forEach_slot_is_Some entries ∅ idx k Hrun). right.
        exists (EntryRecord r). split; [assumption|].
        apply entry_key_Some. eauto. }
      rewrite (Hslot idx Hk) in Hr'. congruence. }
    assert (Hget : object_get idx k = Object_prototype_get k).
    { unfold object_get. rewrite Hlookup, Hproto.
      destruct (String.eqb_spec k "__proto__") as [->|]; reflexivity. }
    rewrite Hget.
    destruct (decide (k ∈ Object_prototype_names)) as [Hin|Hin].
    + left. rewrite (Object_prototype_get_Some k Hin). auto.
    + right. rewrite (Object_prototype_get_None k Hin). auto.
Qed.

(** A lookup after a successful load returns a record of the array with
    that [zip], or a value without fields. *)
Lemma loaded_lookup_Some entries st k r :
  existsb is_null entries = false ->
  lookup_zip (fst (loadZipData (ParsedArray entries) st)) k = Some r ->
  (EntryRecord r ∈ entries /\ zip r = Some k /\ k <> "")
  \/ r = blank_record.
Proof.
  intros Hnull.
  destruct (loadZipData_well_formed entries st Hnull) as (idx & Hrun & ->).
  unfold lookup_zip. cbn [fst zipIndex]. intros Hk.
  pose proof (forEach_own_proto entries ∅ idx Hrun) as Hown.
  cbn in Hown. rewrite lookup_empty in Hown.
  destruct (object_get_Some idx k r Hown Hk) as [Hslot|?]; [|auto].
  destruct (forEach_slot_Some entries ∅ idx k r Hrun Hslot)
    as [Hempty|[Hin Hkey]].
  - unfold object_slot in Hempty.
    destruct (String.eqb k "__proto__"); cbn in Hempty;
      [discriminate|rewrite lookup_empty in Hempty; discriminate].
  - left. split; [assumption|].
    apply entry_key_Some in Hkey as (r' & [= <-] & Hzip & Hne). auto.
Qed.

(** X15: after a successful load of an array in which no record has the
    ZIP code [__proto__], whatever the store held before, a key resolves if
    and only if it names a member of [Object.prototype] or the array holds
    a record whose [zip] is that non-empty string; keys of the previous
    snapshot that the new array does not mention are gone. *)
Theorem resolvable_iff_in_source entries st k :
  existsb is_null entries = false ->
  (forall r, EntryRecord r ∈ entries -> zip r <> Some "__proto__") ->
  is_Some (lookup_zip (fst (loadZipData (ParsedArray entries) st)) k)
  <-> k ∈ Object_prototype_names
      \/ exists r, EntryRecord r ∈ entries /\ zip r = Some k /\ k <> "".
Proof.
  intros Hnull Hnoproto.
  destruct (loaded_lookup_cases entries st k Hnull Hnoproto)
    as [(r & -> & Hr)|[(-> & Hin & Hnot)|(-> & Hin & Hnot)]].
  - split; [intros _; right|]; eauto.
  - split; [intros _; left|]; eauto.
  - split; [intros [? [=]]|intros [?|?]; contradiction].
Qed.

(** Reloading [sample_entries] over a store that knew 59001 only: 99950
    resolves, 10001 does not. *)
Lemma resolvable_iff_in_source_witness :
  let st :=
    fst (loadZipData (ParsedArray sample_entries)
           (fst (loadZipData (ParsedArray [EntryRecord example_record_dup])
                             initial_store))) in
  is_Some (lookup_zip st "99950") /\ ~ is_Some (lookup_zip st "10001").
Proof.
  cbv zeta.
  assert (Hnoproto : forall r, EntryRecord r ∈ sample_entries ->
                               zip r <> Some "__proto__").
  { intros r Hin.
    apply elem_of_cons in Hin as [[= ->]|Hin]; [discriminate|].
    apply elem_of_cons in Hin as [[= ->]|Hin]; [discriminate|].
    apply elem_of_nil in Hin. destruct Hin. }
  split.
  - apply (resolvable_iff_in_source sample_entries _ "99950" eq_refl
             Hnoproto).
    right. exists remote_island_record.
    split; [apply list_elem_of_further, list_elem_of_here|].
    split; [reflexivity|discriminate].
  - intros Hsome.
    apply (resolvable_iff_in_source sample_entries _ "10001" eq_refl
             Hnoproto) in Hsome as [Hname|(r & Hin & Hzip & _)].
    + revert Hname. apply (bool_decide_unpack _). reflexivity.
    + apply elem_of_cons in Hin as [[= ->]|Hin]; [discriminate|].
      apply elem_of_cons in Hin as [[= ->]|Hin]; [discriminate|].
      apply elem_of_nil in Hin. destruct Hin.
Defined.

(** X16: after a successful load, a key only ever resolves to a record of
    the array just loaded whose own [zip] is that key, or to an inherited
    value that has none of the record fields (a member of
    [Object.prototype], or a field of a record filed under [__proto__]). *)
Theorem resolved_record_is_from_source entries st k r :
  existsb is_null entries = false ->
  lookup_zip (fst (loadZipData (ParsedArray entries) st)) k = Some r ->
  (EntryRecord r ∈ entries /\ zip r = Some k /\ k <> "")
  \/ r = blank_record.
Proof. apply loaded_lookup_Some. Qed.

Lemma resolved_record_is_from_source_witness :
  (EntryRecord remote_island_record ∈ sample_entries
   /\ zip remote_island_record = Some "99950" /\ "99950" <> "")
  \/ remote_island_record = blank_record.
Proof.
  apply (resolved_record_is_from_source sample_entries initial_store
           "99950" remote_island_record); reflexivity.
Defined.

(** X17: the number of keys of the index after a successful load.  When
    the keys that the loop writes as own properties are pairwise different,
    the index has one key for each record with a non-empty [zip] other than
    [__proto__] (a record filed under [__proto__] becomes the prototype and
    adds no key); if moreover no element was skipped and no record has the
    ZIP code [__proto__], the count reported by the reload handler is the
    number of keys. *)
Theorem distinct_keys_index_size entries st :
  existsb is_null entries = false ->
  NoDup (omap own_key entries) ->
  let out := reload_zips (ParsedArray entries) st in
  size (zipIndex (fst (fst out))) = length (omap own_key entries)
  /\ (existsb skipped entries = false ->
      (forall r, EntryRecord r ∈ entries -> zip r <> Some "__proto__") ->
      size (zipIndex (fst (fst out))) = total_zips (snd out)).
Proof.
  intros Hnull Hdistinct. cbv zeta. unfold reload_zips.
  destruct (loadZipData_well_formed entries st Hnull) as (idx & Hrun & ->).
  cbn [fst snd zipData zipIndex total_zips].
  assert (Hsize : size idx = length (omap own_key entries)).
  { unfold size, PlainObject_size.
    rewrite <- size_dom, (forEach_own_dom entries ∅ idx Hrun).
    cbn [own_properties PlainObject_empty empty]. rewrite dom_empty_L.
    rewrite (left_id_L ∅ (∪)). apply size_list_to_set, Hdistinct. }
  split; [exact Hsize|]. intros Hskip Hnoproto. rewrite Hsize.
  clear Hrun Hsize Hdistinct.
  induction entries as [|z rest IH]; [reflexivity|].
  cbn in Hnull, Hskip.
  apply orb_false_elim in Hnull as [Hz Hrest].
  apply orb_false_elim in Hskip as [Hsz Hsrest].
  assert (Hkey : exists k, own_key z = Some k).
  { destruct z as [| |r]; cbn in *; try discriminate.
    apply negb_false_iff in Hsz. unfold own_key. cbn. rewrite Hsz.
    specialize (Hnoproto r ltac:(apply list_elem_of_here)).
    destruct (zip r) as [k|]; [|discriminate]. cbn.
    destruct (String.eqb_spec k "__proto__") as [->|]; [congruence|eauto]. }
  destruct Hkey as [k Hk]. cbn [omap list_omap]. rewrite Hk. cbn [length].
  f_equal. apply IH; [assumption..|].
  intros r Hin. apply Hnoproto, list_elem_of_further, Hin.
Qed.

(** A record filed under [__proto__] is indexed but adds no key. *)
Lemma distinct_keys_index_size_witness :
  let out :=
    reload_zips
      (ParsedArray [EntryRecord example_record; EntryRecord proto_record])
      initial_store in
  size (zipIndex (fst (fst out))) = 1%nat /\ total_zips (snd out) = 2%nat.
Proof.
  cbv zeta. split; [|reflexivity].
  refine (proj1 (distinct_keys_index_size
                   [EntryRecord example_record; EntryRecord proto_record]
                   initial_store eq_refl _)).
  apply (bool_decide_unpack _). reflexivity.
Defined.

(** ** Properties of the handlers *)

(** What a 200 answer of [/location-score] is made of. *)
Lemma location_score_Ok st zip_param month currentMonth body :
  location_score st zip_param month currentMonth = LocationOk body ->
  Js.truthy_string zip_param = true
  /\ exists record,
       lookup_zip st (Js.String zip_param) = Some record
       /\ body
          = let monthNum := normalizeMonth month currentMonth in
            let components :=
              computeRemotenessComponents (Some record) monthNum in
            let category := categorizeScore (totalScore components) in
            mkLocationBody (zip record) (city record) (state record)
              monthNum components category (suggestedSurcharge category).
Proof.
  unfold location_score.
  destruct (Js.truthy_string zip_param); cbn [negb]; [|discriminate].
  destruct (lookup_zip st (Js.String zip_param)) as [record|];
    [|discriminate].
  intros [= <-]. split; [reflexivity|]. exists record.
  split; reflexivity.
Qed.

(** The range of the total of a present record. *)
Lemma totalScore_Some_range r month :
  0 <= totalScore (computeRemotenessComponents (Some r) month) <= 10.
Proof.
  destruct (computeRemotenessComponents_Some r month)
    as (Hd & Hm & Hr & Hc & Ht).
  rewrite Ht, Hd, Hm, Hr, Hc. part_ranges r month. lia.
Qed.

(** A value without fields scores zero. *)
Lemma blank_record_scores month :
  computeRemotenessComponents (Some blank_record) month = components0.
Proof. reflexivity. Qed.

(** Which parameters resolve on a loaded store. *)
Lemma loaded_resolves entries st zip_param :
  existsb is_null entries = false ->
  (forall r, EntryRecord r ∈ entries -> zip r <> Some "__proto__") ->
  Js.truthy_string zip_param = true ->
  is_Some (lookup_zip (fst (loadZipData (ParsedArray entries) st))
                      (Js.String zip_param))
  <-> Js.String zip_param ∈ Object_prototype_names
      \/ exists r, EntryRecord r ∈ entries /\ zip r = zip_param.
Proof.
  intros Hnull Hnoproto Htruthy.
  destruct zip_param as [k|]; [|discriminate]. cbn [Js.String].
  assert (Hk : k <> "").
  { cbn in Htruthy. destruct (String.eqb_spec k ""); [discriminate|auto]. }
  destruct (loaded_lookup_cases entries st k Hnull Hnoproto)
    as [(r & -> & Hin & Hzip & _)|[(-> & Hin & Hnot)|(-> & Hin & Hnot)]].
  - split; [intros _; right|]; eauto.
  - split; [intros _; left|]; eauto.
  - split; [intros [? [=]]|].
    intros [?|(r & Hr & Hzip)]; [contradiction|].
    destruct Hnot. eauto.
Qed.

(** X18: the status of [/location-score] in terms of the request and of the
    array that was loaded, when no record of the array has the ZIP code
    [__proto__].  400 exactly when the [zip] parameter is missing or empty.
    Otherwise 200 with the parameter echoed as [zip] when the array holds a
    record with that ZIP code; 200 with no [zip] and zero scores when no
    record has it but it names a member of [Object.prototype] (such as
    [constructor] or [toString]), which the index inherits; and 404 in
    every other case. *)
Theorem location_score_answer entries st zip_param month currentMonth :
  existsb is_null entries = false ->
  (forall r, EntryRecord r ∈ entries -> zip r <> Some "__proto__") ->
  let in_array := exists r, EntryRecord r ∈ entries /\ zip r = zip_param in
  let inherited := Js.String zip_param ∈ Object_prototype_names in
  match location_score (fst (loadZipData (ParsedArray entries) st))
                       zip_param month currentMonth with
  | LocationError code error =>
      (code = 400 /\ Js.truthy_string zip_param = false)
      \/ (code = 404 /\ Js.truthy_string zip_param = true
          /\ ~ in_array /\ ~ inherited)
  | LocationOk body =>
      Js.truthy_string zip_param = true
      /\ ((in_array /\ loc_zip body = zip_param)
          \/ (~ in_array /\ inherited
              /\ loc_zip body = None
              /\ loc_components body = components0
              /\ loc_category body = "URBAN_EASY"
              /\ min (loc_suggested_surcharge body) = 0
              /\ max (loc_suggested_surcharge body) = 0))
  end.
Proof.
  intros Hnull Hnoproto. cbv zeta. unfold location_score.
  destruct (Js.truthy_string zip_param) eqn:Htruthy; cbn [negb];
    [|left; auto].
  destruct zip_param as [k|]; [|discriminate]. cbn [Js.String].
  assert (Hk : k <> "").
  { cbn in Htruthy. destruct (String.eqb_spec k ""); [discriminate|auto]. }
  assert (Harray : forall r, zip r = Some k <-> zip r = Some k /\ k <> "")
    by (intros r; tauto).
  destruct (loaded_lookup_cases entries st k Hnull Hnoproto)
    as [(r & -> & Hin & Hzip & _)|[(-> & Hin & Hnot)|(-> & Hin & Hnot)]].
  - split; [reflexivity|]. left. split; [eauto|]. exact Hzip.
  - split; [reflexivity|]. right.
    split; [intros (r & Hr & Hzip); apply Hnot; eauto|].
    split; [assumption|]. repeat split.
  - right. split; [reflexivity|]. split; [reflexivity|].
    split; [intros (r & Hr & Hzip); apply Hnot; eauto|assumption].
Qed.

(** On [sample_entries]: a known ZIP code, [constructor], an unknown ZIP
    code. *)
Lemma location_score_answer_witness :
  (exists body,
      location_score sample_store (Some "59001") None 7 = LocationOk body
      /\ loc_zip body = Some "59001")
  /\ (exists body,
        location_score sample_store (Some "constructor") None 7
        = LocationOk body
        /\ loc_zip body = None /\ loc_components body = components0)
  /\ (exists error,
        location_score sample_store (Some "10001") None 7
        = LocationError 404 error).
Proof.
  assert (Hnoproto : forall r, EntryRecord r ∈ sample_entries ->
                               zip r <> Some "__proto__").
  { intros r Hin.
    apply elem_of_cons in Hin as [[= ->]|Hin]; [discriminate|].
    apply elem_of_cons in Hin as [[= ->]|Hin]; [discriminate|].
    apply elem_of_nil in Hin. destruct Hin. }
  pose proof (location_score_answer sample_entries initial_store
                (Some "59001") None 7 eq_refl Hnoproto) as H1.
  pose proof (location_score_answer sample_entries initial_store
                (Some "constructor") None 7 eq_refl Hnoproto) as H2.
  pose proof (location_score_answer sample_entries initial_store
                (Some "10001") None 7 eq_refl Hnoproto) as H3.
  cbv zeta in H1, H2, H3. unfold sample_store.
  destruct (location_score _ (Some "59001") None 7) as [code error|body1]
    eqn:E1; [discriminate E1|].
  destruct (location_score _ (Some "constructor") None 7)
    as [code error|body2] eqn:E2; [discriminate E2|].
  destruct (location_score _ (Some "10001") None 7) as [code error|body3]
    eqn:E3; [|discriminate E3].
  split; [|split].
  - exists body1. split; [reflexivity|].
    destruct H1 as (_ & [(_ & Hzip)|(Hnot & _)]); [exact Hzip|].
    destruct Hnot. exists example_record.
    split; [apply list_elem_of_here|reflexivity].
  - exists body2. split; [reflexivity|].
    destruct H2 as (_ & [((r & Hin & Hzip) & _)|(_ & _ & Hzip & Hc & _)]);
      [|auto].
    apply elem_of_cons in Hin as [[= ->]|Hin]; [discriminate|].
    apply elem_of_cons in Hin as [[= ->]|Hin]; [discriminate|].
    apply elem_of_nil in Hin. destruct Hin.
  - exists error. destruct H3 as [(Hcode & Hfalse)|(-> & _)];
      [discriminate|reflexivity].
Defined.

(** X19: on a store filled by a successful load, a 200 answer of
    [/location-score] either echoes the ZIP code that was asked for, or
    (for a key that resolves through the prototype chain only) carries no
    [zip], [city] or [state] and all-zero components; with the current
    month in 1..12 its month is in 1..12, its total is between 0 and 10,
    and its surcharge range satisfies 0 <= min <= max <= 300. *)
Theorem location_score_ok_body entries st zip_param month currentMonth body :
  existsb is_null entries = false ->
  1 <= currentMonth <= 12 ->
  location_score (fst (loadZipData (ParsedArray entries) st))
                 zip_param month currentMonth
  = LocationOk body ->
  (loc_zip body = zip_param
   \/ (loc_zip body = None /\ loc_city body = None
       /\ loc_state body = None /\ loc_components body = components0))
  /\ 1 <= loc_month body <= 12
  /\ 0 <= totalScore (loc_components body) <= 10
  /\ 0 <= min (loc_suggested_surcharge body)
     <= max (loc_suggested_surcharge body)
  /\ max (loc_suggested_surcharge body) <= 300.
Proof.
  intros Hnull Hmonth Hok.
  apply location_score_Ok in Hok as (Hparam & record & Hlookup & ->).
  cbv zeta.
  cbn [loc_zip loc_city loc_state loc_month loc_components
       loc_suggested_surcharge].
  split.
  { destruct (loaded_lookup_Some entries st _ record Hnull Hlookup)
      as [(_ & Hzip & _)| ->].
    - left. rewrite Hzip. destruct zip_param; [reflexivity|discriminate].
    - right. repeat split. }
  split; [apply normalizeMonth_in_range, Hmonth|].
  pose proof (totalScore_Some_range record
                (normalizeMonth month currentMonth)) as Ht.
  pose proof (surcharge_of_total
                (totalScore (computeRemotenessComponents
                               (Some record)
                               (normalizeMonth month currentMonth)))) as Hs.
  cbv zeta in Hs. lia.
Qed.

Lemma location_score_ok_body_witness :
  exists body,
    location_score sample_store (Some "59001") (Some 0) 1 = LocationOk body
    /\ (loc_zip body = Some "59001"
        \/ (loc_zip body = None /\ loc_city body = None
            /\ loc_state body = None /\ loc_components body = components0))
    /\ 1 <= loc_month body <= 12
    /\ 0 <= totalScore (loc_components body) <= 10
    /\ 0 <= min (loc_suggested_surcharge body)
       <= max (loc_suggested_surcharge body)
    /\ max (loc_suggested_surcharge body) <= 300.
Proof.
  eexists. split; [reflexivity|].
  apply (location_score_ok_body sample_entries initial_store
           (Some "59001") (Some 0) 1).
  - reflexivity.
  - lia.
  - reflexivity.
Defined.

(** What a 200 answer of [/trip-score] is made of. *)
Lemma trip_score_Ok st pickup_zip delivery_zip month currentMonth body :
  trip_score st pickup_zip delivery_zip month currentMonth = TripOk body ->
  Js.truthy_string pickup_zip = true
  /\ Js.truthy_string delivery_zip = true
  /\ exists pickupRecord deliveryRecord,
       lookup_zip st (Js.String pickup_zip) = Some pickupRecord
       /\ lookup_zip st (Js.String delivery_zip) = Some deliveryRecord
       /\ body
          = let monthNum := normalizeMonth month currentMonth in
            let endpoint record :=
              let components :=
                computeRemotenessComponents (Some record) monthNum in
              let category := categorizeScore (totalScore components) in
              mkEndpointBody (zip record) (city record) (state record)
                components category (suggestedSurcharge category) in
            mkTripBody monthNum
              (endpoint pickupRecord) (endpoint deliveryRecord)
              (totalSurcharge
                 (ep_suggested_surcharge (endpoint pickupRecord))
                 (ep_suggested_surcharge (endpoint deliveryRecord))).
Proof.
  unfold trip_score.
  destruct (Js.truthy_string pickup_zip); cbn [negb orb]; [|discriminate].
  destruct (Js.truthy_string delivery_zip); cbn [negb orb]; [|discriminate].
  destruct (lookup_zip st (Js.String pickup_zip)) as [pickupRecord|];
    [|discriminate].
  destruct (lookup_zip st (Js.String delivery_zip)) as [deliveryRecord|];
    [|discriminate].
  intros [= <-]. repeat split. exists pickupRecord, deliveryRecord.
  repeat split.
Qed.

(** X20: the status of [/trip-score] in terms of the request and of the
    array that was loaded, when no record of the array has the ZIP code
    [__proto__].  A parameter resolves when the array holds a record with
    that ZIP code or when it names a member of [Object.prototype].  The
    answer is 400 exactly when one of the two parameters is missing or
    empty; otherwise 404 when one of them does not resolve, the message
    naming the pickup ZIP whenever the pickup does not resolve (also when
    the delivery does not resolve either) and the delivery ZIP only when
    the pickup resolves; otherwise 200 with the normalised month. *)
Theorem trip_score_answer
    entries st pickup_zip delivery_zip month currentMonth :
  existsb is_null entries = false ->
  (forall r, EntryRecord r ∈ entries -> zip r <> Some "__proto__") ->
  let resolves zip_param :=
    Js.String zip_param ∈ Object_prototype_names
    \/ exists r, EntryRecord r ∈ entries /\ zip r = zip_param in
  match trip_score (fst (loadZipData (ParsedArray entries) st))
                   pickup_zip delivery_zip month currentMonth with
  | TripError code error =>
      (code = 400
       /\ (Js.truthy_string pickup_zip = false
           \/ Js.truthy_string delivery_zip = false))
      \/ (code = 404
          /\ Js.truthy_string pickup_zip = true
          /\ Js.truthy_string delivery_zip = true
          /\ ((~ resolves pickup_zip
               /\ error = ("Pickup ZIP " ++ Js.String pickup_zip
                           ++ " not found in dataset")%string)
              \/ (resolves pickup_zip /\ ~ resolves delivery_zip
                  /\ error = ("Delivery ZIP " ++ Js.String delivery_zip
                              ++ " not found in dataset")%string)))
  | TripOk body =>
      Js.truthy_string pickup_zip = true
      /\ Js.truthy_string delivery_zip = true
      /\ resolves pickup_zip /\ resolves delivery_zip
      /\ trip_month body = normalizeMonth month currentMonth
  end.
Proof.
  intros Hnull Hnoproto. cbv beta zeta. unfold trip_score.
  destruct (Js.truthy_string pickup_zip) eqn:Hp; cbn [negb orb];
    [|left; auto].
  destruct (Js.truthy_string delivery_zip) eqn:Hd; cbn [negb orb];
    [|left; auto].
  pose proof (loaded_resolves entries st pickup_zip Hnull Hnoproto Hp)
    as Hrp.
  pose proof (loaded_resolves entries st delivery_zip Hnull Hnoproto Hd)
    as Hrd.
  destruct (lookup_zip _ (Js.String pickup_zip)) as [pickupRecord|].
  - assert (Hpickup := proj1 Hrp ltac:(eauto)).
    destruct (lookup_zip _ (Js.String delivery_zip)) as [deliveryRecord|].
    + assert (Hdelivery := proj1 Hrd ltac:(eauto)). repeat split; auto.
    + right. repeat split. right. split; [assumption|].
      split; [|reflexivity]. intros Hres. apply Hrd in Hres as [? [=]].
  - right. repeat split. left. split; [|reflexivity].
    intros Hres. apply Hrp in Hres as [? [=]].
Qed.

(** On [sample_entries]: both ZIP codes unknown, then a known pickup with
    [hasOwnProperty] as delivery. *)
Lemma trip_score_answer_witness :
  trip_score sample_store (Some "10001") (Some "10002") None 7
  = TripError 404 "Pickup ZIP 10001 not found in dataset"
  /\ exists body,
       trip_score sample_store (Some "59001") (Some "hasOwnProperty") None 7
       = TripOk body.
Proof.
  assert (Hnoproto : forall r, EntryRecord r ∈ sample_entries ->
                               zip r <> Some "__proto__").
  { intros r Hin.
    apply elem_of_cons in Hin as [[= ->]|Hin]; [discriminate|].
    apply elem_of_cons in Hin as [[= ->]|Hin]; [discriminate|].
    apply elem_of_nil in Hin. destruct Hin. }
  pose proof (trip_score_answer sample_entries initial_store
                (Some "10001") (Some "10002") None 7 eq_refl Hnoproto) as H1.
  pose proof (trip_score_answer sample_entries initial_store
                (Some "59001") (Some "hasOwnProperty") None 7 eq_refl
                Hnoproto) as H2.
  cbv beta zeta in H1, H2. unfold sample_store.
  destruct (trip_score _ (Some "10001") (Some "10002") None 7)
    as [code error|body1] eqn:E1; [|discriminate E1].
  destruct (trip_score _ (Some "59001") (Some "hasOwnProperty") None 7)
    as [code2 error2|body2] eqn:E2; [discriminate E2|].
  split; [|eauto].
  destruct H1 as [(_ & [Hf|Hf])|(-> & _ & _ & [(_ & ->)|(Hres & _)])];
    try discriminate; [reflexivity|].
  destruct Hres as [Hname|(r & Hin & Hzip)].
  - exfalso. revert Hname. apply (bool_decide_unpack _). reflexivity.
  - apply elem_of_cons in Hin as [[= ->]|Hin]; [discriminate|].
    apply elem_of_cons in Hin as [[= ->]|Hin]; [discriminate|].
    apply elem_of_nil in Hin. destruct Hin.
Defined.

(** X21: each half of a 200 answer of [/trip-score] is the 200 answer that
    [/location-score] gives for that ZIP code with the same month
    parameter: same echoed fields, month, components, category and
    surcharge. *)
Theorem trip_endpoints_are_location_scores
    st pickup_zip delivery_zip month currentMonth body :
  trip_score st pickup_zip delivery_zip month currentMonth = TripOk body ->
  let as_location e :=
    LocationOk
      (mkLocationBody (ep_zip e) (ep_city e) (ep_state e) (trip_month body)
         (ep_components e) (ep_category e) (ep_suggested_surcharge e)) in
  location_score st pickup_zip month currentMonth
  = as_location (pickup body)
  /\ location_score st delivery_zip month currentMonth
     = as_location (delivery body).
Proof.
  intros Hok.
  apply trip_score_Ok in Hok
    as (Hp & Hd & pickupRecord & deliveryRecord & Hlp & Hld & ->).
  cbv zeta. unfold location_score. rewrite Hp, Hd, Hlp, Hld.
  split; reflexivity.
Qed.

Lemma trip_endpoints_are_location_scores_witness :
  exists body,
    trip_score sample_store (Some "59001") (Some "99950") None 7
    = TripOk body
    /\ location_score sample_store (Some "59001") None 7
       = LocationOk
           (mkLocationBody (ep_zip (pickup body)) (ep_city (pickup body))
              (ep_state (pickup body)) (trip_month body)
              (ep_components (pickup body)) (ep_category (pickup body))
              (ep_suggested_surcharge (pickup body)))
    /\ location_score sample_store (Some "99950") None 7
       = LocationOk
           (mkLocationBody (ep_zip (delivery body))
              (ep_city (delivery body)) (ep_state (delivery body))
              (trip_month body) (ep_components (delivery body))
              (ep_category (delivery body))
              (ep_suggested_surcharge (delivery body))).
Proof.
  eexists. split; [reflexivity|].
  apply (trip_endpoints_are_location_scores sample_store
           (Some "59001") (Some "99950") None 7).
  reflexivity.
Defined.

(** X22: in a 200 answer of [/trip-score] the total range satisfies
    0 <= min <= max <= 600, and each of its ends is at least the
    corresponding end of either endpoint's range. *)
Theorem trip_total_bounds
    st pickup_zip delivery_zip month currentMonth body :
  trip_score st pickup_zip delivery_zip month currentMonth = TripOk body ->
  let total := total_suggested_surcharge body in
  let p := ep_suggested_surcharge (pickup body) in
  let d := ep_suggested_surcharge (delivery body) in
  0 <= min total <= max total /\ max total <= 600
  /\ min p <= min total /\ min d <= min total
  /\ max p <= max total /\ max d <= max total.
Proof.
  intros Hok.
  apply trip_score_Ok in Hok
    as (_ & _ & pickupRecord & deliveryRecord & _ & _ & ->).
  cbv zeta.
  cbn [total_suggested_surcharge pickup delivery ep_suggested_surcharge
       totalSurcharge min max].
  pose proof (surcharge_of_total
                (totalScore (computeRemotenessComponents
                               (Some pickupRecord)
                               (normalizeMonth month currentMonth)))) as Hp.
  pose proof (surcharge_of_total
                (totalScore (computeRemotenessComponents
                               (Some deliveryRecord)
                               (normalizeMonth month currentMonth)))) as Hd.
  cbv zeta in Hp, Hd. lia.
Qed.

Lemma trip_total_bounds_witness :
  exists body,
    trip_score sample_store (Some "59001") (Some "99950") (Some 7) 7
    = TripOk body
    /\ 0 <= min (total_suggested_surcharge body)
       <= max (total_suggested_surcharge body)
    /\ max (total_suggested_surcharge body) <= 600.
Proof.
  eexists. split; [reflexivity|].
  pose proof (trip_total_bounds sample_store
                (Some "59001") (Some "99950") (Some 7) 7 _ eq_refl) as H.
  cbv zeta in H. destruct H as (H1 & H2 & _). split; assumption.
Defined.

(** X23: swapping pickup and delivery swaps the two halves of a 200 answer of
    [/trip-score] and leaves the month and the total range unchanged. *)
Theorem trip_score_swap st pickup_zip delivery_zip month currentMonth body :
  trip_score st pickup_zip delivery_zip month currentMonth = TripOk body ->
  trip_score st delivery_zip pickup_zip month currentMonth
  = TripOk (mkTripBody (trip_month body) (delivery body) (pickup body)
              (total_suggested_surcharge body)).
Proof.
  intros Hok.
  apply trip_score_Ok in Hok
    as (Hp & Hd & pickupRecord & deliveryRecord & Hlp & Hld & ->).
  cbv zeta. unfold trip_score. rewrite Hp, Hd, Hlp, Hld.
  cbn [negb orb trip_month pickup delivery total_suggested_surcharge].
  unfold totalSurcharge. cbn [ep_suggested_surcharge].
  do 2 f_equal. f_equal; apply Z.add_comm.
Qed.

Lemma trip_score_swap_witness :
  exists body,
    trip_score sample_store (Some "59001") (Some "99950") (Some 7) 7
    = TripOk body
    /\ trip_score sample_store (Some "99950") (Some "59001") (Some 7) 7
       = TripOk (mkTripBody (trip_month body) (delivery body) (pickup body)
                   (total_suggested_surcharge body)).
Proof.
  eexists. split; [reflexivity|].
  apply (trip_score_swap sample_store
           (Some "59001") (Some "99950") (Some 7) 7).
  reflexivity.
Defined.

(** X24: after a load that failed as a whole, no request is answered from
    the dataset.  [/location-score] answers 400 or 404, except for a key
    that names a member of [Object.prototype], for which it answers 200
    with no [zip], [city] or [state], zero components, URBAN_EASY and the
    zero range.  [/trip-score] answers 400 or 404, except when both keys
    name members of [Object.prototype], and then both halves score zero and
    the total is the zero range. *)
Theorem failed_load_serves_no_record src st :
  well_formed src = false ->
  let st' := fst (loadZipData src st) in
  let zero :=
    {| currency := "USD"; type := "lump_sum"; min := 0; max := 0 |} in
  (forall zip_param month currentMonth,
      match location_score st' zip_param month currentMonth with
      | LocationError code error => code = 400 \/ code = 404
      | LocationOk body =>
          Js.String zip_param ∈ Object_prototype_names
          /\ loc_zip body = None /\ loc_city body = None
          /\ loc_state body = None
          /\ loc_components body = components0
          /\ loc_category body = "URBAN_EASY"
          /\ loc_suggested_surcharge body = zero
      end)
  /\ (forall pickup_zip delivery_zip month currentMonth,
        match trip_score st' pickup_zip delivery_zip month currentMonth with
        | TripError code error => code = 400 \/ code = 404
        | TripOk body =>
            Js.String pickup_zip ∈ Object_prototype_names
            /\ Js.String delivery_zip ∈ Object_prototype_names
            /\ ep_components (pickup body) = components0
            /\ ep_components (delivery body) = components0
            /\ total_suggested_surcharge body = zero
        end).
Proof.
  intros Hsrc. destruct (loadZipData_malformed src st Hsrc) as [message ->].
  cbv zeta. cbn [fst].
  assert (Hget : forall k,
    lookup_zip {| zipData := []; zipIndex := ∅ |} k = Some blank_record
    /\ k ∈ Object_prototype_names
    \/ lookup_zip {| zipData := []; zipIndex := ∅ |} k = None).
  { intros k. unfold lookup_zip. cbn [zipIndex]. rewrite object_get_empty.
    destruct (decide (k ∈ Object_prototype_names)) as [Hin|Hin].
    - left. split; [apply Object_prototype_get_Some|]; assumption.
    - right. apply Object_prototype_get_None, Hin. }
  split.
  - intros zip_param month currentMonth. unfold location_score.
    destruct (Js.truthy_string zip_param); cbn [negb]; [|auto].
    destruct (Hget (Js.String zip_param)) as [[-> Hin]| ->]; [|auto].
    repeat split. exact Hin.
  - intros pickup_zip delivery_zip month currentMonth. unfold trip_score.
    destruct (negb _ || negb _); [auto|].
    destruct (Hget (Js.String pickup_zip)) as [[-> Hp]| ->]; [|auto].
    destruct (Hget (Js.String delivery_zip)) as [[-> Hd]| ->]; [|auto].
    repeat split; assumption.
Qed.

(** After a start with no readable file: a ZIP code of the dataset is not
    found, [toString] is answered with zero scores. *)
Lemma failed_load_serves_no_record_witness :
  let st' :=
    fst (loadZipData (ReadFails "ENOENT: no such file or directory")
                     initial_store) in
  (exists error,
      location_score st' (Some "59001") (Some 1) 1
      = LocationError 404 error)
  /\ (exists body,
        location_score st' (Some "toString") (Some 1) 1 = LocationOk body
        /\ loc_components body = components0).
Proof.
  cbv zeta.
  pose proof (failed_load_serves_no_record
                (ReadFails "ENOENT: no such file or directory")
                initial_store eq_refl) as [Hloc _].
  cbv zeta in Hloc.
  pose proof (Hloc (Some "59001") (Some 1) 1) as H1.
  pose proof (Hloc (Some "toString") (Some 1) 1) as H2.
  destruct (location_score _ (Some "59001") (Some 1) 1)
    as [code error|body1] eqn:E1; [|discriminate E1].
  destruct (location_score _ (Some "toString") (Some 1) 1)
    as [code2 error2|body2] eqn:E2; [discriminate E2|].
  split.
  - exists error. injection E1 as <- <-. reflexivity.
  - exists body2. split; [reflexivity|]. apply H2.
Defined.

(** ** Order and skipped elements of the array *)

Section ArrayShape.

Implicit Types (idx : PlainObject) (z : Entry).
Implicit Types (entries : list Entry) (k : string) (r : ZipRecord).

Lemma no_null_not_elem entries :
  existsb is_null entries = false <-> EntryNull ∉ entries.
Proof.
  induction entries as [|z rest IH]; cbn.
  - split; [intros _; apply not_elem_of_nil|reflexivity].
  - rewrite orb_false_iff, IH, not_elem_of_cons.
    destruct z; cbn; intuition congruence.
Qed.

(** Dropping the skipped elements does not change the loop. *)
Lemma forEach_filter_skipped entries idx :
  forEach (List.filter (fun z => negb (skipped z)) entries) idx
  = forEach entries idx.
Proof.
  revert idx. induction entries as [|z rest IH]; intros idx; [reflexivity|].
  cbn [List.filter]. destruct (skipped z) eqn:Hz; cbn [negb forEach].
  - rewrite (index_entry_skipped idx z Hz). apply IH.
  - destruct (index_entry idx z); [apply IH|reflexivity].
Qed.

(** With pairwise different keys, a key belongs to one element only. *)
Lemma entry_key_unique entries z1 z2 k :
  NoDup (omap entry_key entries) ->
  z1 ∈ entries -> z2 ∈ entries ->
  entry_key z1 = Some k -> entry_key z2 = Some k -> z1 = z2.
Proof.
  induction entries as [|z rest IH]; cbn; intros Hdistinct H1 H2 Hk1 Hk2.
  - apply elem_of_nil in H1. destruct H1.
  - assert (Hfresh : forall z', z' ∈ rest -> entry_key z' = Some k ->
                                 entry_key z = Some k -> False).
    { intros z' Hin Hk' Hk. rewrite Hk in Hdistinct.
      apply NoDup_cons in Hdistinct as [Hnotin _]. apply Hnotin.
      apply list_elem_of_omap. eauto. }
    assert (Hrest : NoDup (omap entry_key rest)).
    { destruct (entry_key z); [apply NoDup_cons in Hdistinct as [_ ?]|];
        assumption. }
    apply elem_of_cons in H1 as [->|H1]; apply elem_of_cons in H2 as [->|H2].
    + reflexivity.
    + destruct (Hfresh z2 H2 Hk2 Hk1).
    + destruct (Hfresh z1 H1 Hk1 Hk2).
    + apply (IH Hrest H1 H2 Hk1 Hk2).
Qed.

(** With pairwise different keys, the index binds exactly the filed
    records, each under its key. *)
Lemma forEach_slot_distinct entries idx k r :
  NoDup (omap entry_key entries) ->
  forEach entries ∅ = Normal idx ->
  object_slot idx k = Some r
  <-> EntryRecord r ∈ entries /\ entry_key (EntryRecord r) = Some k.
Proof.
  intros Hdistinct Hrun. split.
  - intros Hk. destruct (forEach_slot_Some entries ∅ idx k r Hrun Hk)
      as [Hempty|?]; [|assumption].
    unfold object_slot in Hempty.
    destruct (String.eqb k "__proto__"); cbn in Hempty;
      [discriminate|rewrite lookup_empty in Hempty; discriminate].
  - intros [Hin Hkey].
    assert (is_Some (object_slot idx k)) as [r' Hr'].
    { apply (forEach_slot_is_Some entries ∅ idx k Hrun). eauto. }
    destruct (forEach_slot_Some entries ∅ idx k r' Hrun Hr')
      as [Hempty|[Hin' Hkey']].
    + unfold object_slot in Hempty.
      destruct (String.eqb k "__proto__"); cbn in Hempty;
        [discriminate|rewrite lookup_empty in Hempty; discriminate].
    + pose proof (entry_key_unique entries _ _ k Hdistinct Hin Hin'
                    Hkey Hkey') as [= ->].
      exact Hr'.
Qed.

(** Two objects without an own [__proto__] that bind every key alike are
    equal. *)
Lemma object_eq_slots (o1 o2 : PlainObject) :
  own_properties o1 !! "__proto__" = None ->
  own_properties o2 !! "__proto__" = None ->
  (forall k, object_slot o1 k = object_slot o2 k) ->
  o1 = o2.
Proof.
  destruct o1 as [own1 proto1], o2 as [own2 proto2]. cbn.
  intros Hown1 Hown2 Hslots. f_equal.
  - apply map_eq. intros key.
    destruct (decide (key = "__proto__")) as [Hkey|Hkey].
    + rewrite Hkey, Hown1, Hown2. reflexivity.
    + specialize (Hslots key). unfold object_slot in Hslots.
      apply String.eqb_neq in Hkey. rewrite Hkey in Hslots. exact Hslots.
  - exact (Hslots "__proto__").
Qed.

End ArrayShape.

(** X25: the elements that the loop skips leave no trace in the index: loading
    an array and loading it without its skipped elements build the same
    index. *)
Theorem skipped_entries_leave_no_trace entries st :
  zipIndex (fst (loadZipData (ParsedArray entries) st))
  = zipIndex
      (fst (loadZipData
              (ParsedArray (List.filter (fun z => negb (skipped z)) entries))
              st)).
Proof.
  unfold loadZipData, loadZipData_try.
  rewrite forEach_filter_skipped.
  destruct (forEach entries ∅); reflexivity.
Qed.

(** X26: when the filed records have pairwise different ZIP codes, their order
    in the array does not matter: two arrays that are permutations of each
    other build the same index. *)
Theorem index_independent_of_order entries1 entries2 st :
  existsb is_null entries1 = false ->
  NoDup (omap entry_key entries1) ->
  entries1 ≡ₚ entries2 ->
  zipIndex (fst (loadZipData (ParsedArray entries1) st))
  = zipIndex (fst (loadZipData (ParsedArray entries2) st)).
Proof.
  intros Hnull1 Hdistinct1 Hperm.
  assert (Hnull2 : existsb is_null entries2 = false).
  { apply no_null_not_elem. rewrite <- Hperm.
    apply no_null_not_elem, Hnull1. }
  assert (Hdistinct2 : NoDup (omap entry_key entries2)).
  { rewrite <- Hperm. exact Hdistinct1. }
  destruct (loadZipData_well_formed entries1 st Hnull1)
    as (idx1 & Hrun1 & ->).
  destruct (loadZipData_well_formed entries2 st Hnull2)
    as (idx2 & Hrun2 & ->).
  cbn [fst zipIndex]. apply object_eq_slots.
  - rewrite (forEach_own_proto _ _ _ Hrun1). apply lookup_empty.
  - rewrite (forEach_own_proto _ _ _ Hrun2). apply lookup_empty.
  - intros k. apply option_eq. intros r.
    rewrite (forEach_slot_distinct entries1 idx1 k r Hdistinct1 Hrun1).
    rewrite (forEach_slot_distinct entries2 idx2 k r Hdistinct2 Hrun2).
    rewrite Hperm. reflexivity.
Qed.

Lemma index_independent_of_order_witness :
  zipIndex (fst (loadZipData (ParsedArray sample_entries) initial_store))
  = zipIndex
      (fst (loadZipData
              (ParsedArray [EntryRecord remote_island_record;
                            EntryRecord example_record])
              initial_store)).
Proof.
  apply (index_independent_of_order sample_entries
           [EntryRecord remote_island_record; EntryRecord example_record]
           initial_store).
  - reflexivity.
  - apply (bool_decide_unpack _). reflexivity.
  - apply Permutation_swap.
Defined.
